(** * ffmpeg-utils: argument builder and stream supervisor

    A shallow embedding of [src/ffmpeg-utils.js].

    - The numbers a configuration carries (seconds, minutes, kbps, loop
      counts) are whole numbers, modelled as [Z]. JavaScript holds them
      as doubles: on whole numbers of magnitude up to
      [MAX_SAFE_INTEGER] a sum, difference or product that stays in
      that range is exact, [Math.round] changes nothing and [String(n)]
      is plain decimal notation. Where a property states the text of a
      computed number it does so for that range; fractional values are
      outside the model.
    - A configuration field is [undefined], [null] or a value of the
      type the interface gives it.
    - The module-level [activeStreams] map, the [StreamState] objects
      it points to, the child processes and the pending timers form an
      explicit [World]; closures capture the address of the
      [StreamState] object they were created for, as in the source.
    - Console output is not part of the model. *)

From Stdlib Require Import ZArith String Ascii List DecimalString Lia.
From stdpp Require Import gmap strings list fin_maps.

Open Scope string_scope.
Open Scope Z_scope.

(** ** JavaScript values *)

Inductive js (A : Type) : Type :=
  | undefined : js A
  | null : js A
  | val (a : A) : js A.
Arguments undefined {A}.
Arguments null {A}.
Arguments val {A} a.

(** [x != null] *)
Definition not_nullish {A} (x : js A) : bool :=
  match x with val _ => true | _ => false end.

(** Truthiness of a boolean, a number and a string field. *)
Definition truthy_bool (x : js bool) : bool :=
  match x with val b => b | _ => false end.

Definition truthy_num (x : js Z) : bool :=
  match x with val n => negb (n =? 0) | _ => false end.

Definition truthy_str (x : js string) : bool :=
  match x with val s => negb (String.eqb s "") | _ => false end.

(** [x !== s] for a string literal [s]. *)
Definition strict_ne_str (x : js string) (s : string) : bool :=
  match x with val t => negb (String.eqb t s) | _ => true end.

(** The property key or template text of a string field. *)
Definition str_of (x : js string) : string :=
  match x with val s => s | null => "null" | undefined => "undefined" end.

(** [x === n] for a number literal [n]. *)
Definition strict_eq_num (x : js Z) (n : Z) : bool :=
  match x with val m => m =? n | _ => false end.

(** [x > n] for a number literal [n]: [undefined] converts to NaN and
    [null] to 0. *)
Definition gt_num (x : js Z) (n : Z) : bool :=
  match x with
  | val m => n <? m
  | null => n <? 0
  | undefined => false
  end.

(** [x > y] between two number fields. *)
Definition gt_js (x y : js Z) : bool :=
  match x, y with
  | undefined, _ | _, undefined => false
  | val m, val n => n <? m
  | val m, null => 0 <? m
  | null, val n => n <? 0
  | null, null => false
  end.

(** ToNumber of a number field that is not [undefined]. *)
Definition to_number (x : js Z) : Z :=
  match x with val m => m | _ => 0 end.

(** [Number.MAX_SAFE_INTEGER] and [Number.isSafeInteger] on a whole
    number. *)
Definition MAX_SAFE_INTEGER : Z := 2 ^ 53 - 1.

Definition isSafeInteger (n : Z) : bool :=
  (- MAX_SAFE_INTEGER <=? n) && (n <=? MAX_SAFE_INTEGER).

(** [String(n)] and the text of [n] in a template literal, for a whole
    number [n]: a minus sign for a negative number and the decimal
    digits. This is what JavaScript prints for every safe integer. *)
Definition String_ (n : Z) : string := NilZero.string_of_int (Z.to_int n).

(** [Math.round(n)] on a whole number. *)
Definition Math_round (n : Z) : Z := n.

(** ** Stream configuration *)

Inductive FrameRate := FrSource | FrNum (n : Z).
Inductive Bitrate := BrAuto | BrNum (n : Z).

Module Config.
Record t := mk {
  loop : js bool;
  loopCount : js Z;
  startTime : js Z;
  endTime : js Z;
  duration : js Z;
  resolution : js string;
  aspectRatio : js string;
  frameRate : js FrameRate;
  bitrate : js Bitrate;
  rtmpUrl : string;
  streamKey : js string
}.
End Config.
Abbreviation Config := Config.t.

(** ** Object-literal lookup

    [resMap[k]] and [ratioMap[k]] read a property of a plain object:
    an own key gives its value, a name inherited from
    [Object.prototype] gives that (truthy) member, whose text in a
    template literal is what the runtime prints for it. *)

Definition object_prototype : list string :=
  [ "constructor"; "hasOwnProperty"; "isPrototypeOf";
    "propertyIsEnumerable"; "toLocaleString"; "toString"; "valueOf";
    "__defineGetter__"; "__defineSetter__"; "__lookupGetter__";
    "__lookupSetter__" ].

Definition inherited (k : string) : option string :=
  if String.eqb k "__proto__" then Some "[object Object]"
  else if existsb (String.eqb k) object_prototype
       then Some ("function " +:+
                  (if String.eqb k "constructor" then "Object" else k)
                  +:+ "() { [native code] }")
       else None.

Fixpoint lookup_literal (own : list (string * string)) (k : string)
  : option string :=
  match own with
  | [] => inherited k
  | (k', v) :: rest => if String.eqb k k' then Some v else lookup_literal rest k
  end.

Definition resMap : list (string * string) :=
  [ ("1080p", "1920:1080"); ("720p", "1280:720"); ("480p", "854:480") ].

Definition ratioMap : list (string * string) :=
  [ ("16:9", "16/9"); ("9:16", "9/16"); ("1:1", "1/1"); ("4:3", "4/3") ].

(** ** [buildFfmpegArgs] *)

(** [s.replace(/\/$/, '')]: without the multiline flag [$] is the end
    of the input, so at most the final character is removed. *)
Fixpoint strip_trailing_slash (s : string) : string :=
  match s with
  | EmptyString => EmptyString
  | String c EmptyString =>
      if Ascii.eqb c "/" then EmptyString else s
  | String c rest => String c (strip_trailing_slash rest)
  end.

(** [filters.join(',')] *)
Fixpoint join (sep : string) (xs : list string) : string :=
  match xs with
  | [] => ""
  | [x] => x
  | x :: rest => x +:+ sep +:+ join sep rest
  end.

Definition push (args : list string) (xs : list string) : list string :=
  args ++ xs.

Section Builder.
Import Config.

Definition isLooping (config : Config) : bool :=
  truthy_bool (loop config)
  || strict_eq_num (loopCount config) (-1)
  || gt_num (loopCount config) 1.

(** Lines 20-44: the options placed before the input. The differences
    of lines 27 and 40 are those of whole numbers. *)
Definition inputOptions (config : Config) : list string :=
  let args := [] in
  let args := push args ["-re"] in
  let args :=
    if truthy_bool (loop config) || strict_eq_num (loopCount config) (-1)
    then push args ["-stream_loop"; "-1"]
    else if gt_num (loopCount config) 1
         then push args ["-stream_loop"; String_ (to_number (loopCount config) - 1)]
         else args in
  let args :=
    if truthy_num (startTime config) && gt_num (startTime config) 0
    then push args ["-ss"; String_ (to_number (startTime config))]
    else args in
  let args :=
    if negb (isLooping config) && truthy_num (endTime config)
       && not_nullish (startTime config)
       && gt_js (endTime config) (startTime config)
    then push args ["-t";
           String_ (to_number (endTime config) - to_number (startTime config))]
    else args in
  args.

(** Lines 52-81. *)
Definition videoFilters (config : Config) : list string :=
  let filters := [] in
  let filters :=
    if truthy_str (resolution config)
       && strict_ne_str (resolution config) "source"
    then match lookup_literal resMap (str_of (resolution config)) with
         | Some d => push filters ["scale=" +:+ d]
         | None => filters
         end
    else filters in
  let filters :=
    if truthy_str (aspectRatio config)
       && strict_ne_str (aspectRatio config) "source"
    then match lookup_literal ratioMap (str_of (aspectRatio config)) with
         | Some d => push filters ["setdar=" +:+ d]
         | None => filters
         end
    else filters in
  filters.

(** Lines 112-114. *)
Definition rtmpDest (config : Config) : string :=
  if truthy_str (streamKey config)
  then strip_trailing_slash (rtmpUrl config) +:+ "/" +:+ str_of (streamKey config)
  else rtmpUrl config.

(** Lines 46-115: codec, filters, rates, audio, output cap, destination.
    The products of lines 92 and 106 are those of whole numbers. *)
Definition outputOptions (config : Config) : list string :=
  let args := [] in
  let args := push args ["-c:v"; "libx264"] in
  let args := push args ["-preset"; "veryfast"] in
  let args := push args ["-tune"; "zerolatency"] in
  let filters := videoFilters config in
  let args :=
    if (0 <? length filters)%nat
    then push args ["-vf"; join "," filters]
    else args in
  let args :=
    match frameRate config with
    | val (FrNum n) =>
        if negb (n =? 0) then push args ["-r"; String_ n] else args
    | _ => args
    end in
  let args :=
    match bitrate config with
    | val (BrNum n) =>
        if negb (n =? 0)
        then push (push (push args ["-b:v"; String_ n +:+ "k"])
                                   ["-maxrate"; String_ n +:+ "k"])
                  ["-bufsize"; String_ (Math_round (n * 2)) +:+ "k"]
        else push (push (push args ["-b:v"; "4500k"])
                        ["-maxrate"; "4500k"]) ["-bufsize"; "9000k"]
    | _ => push (push (push args ["-b:v"; "4500k"])
                      ["-maxrate"; "4500k"]) ["-bufsize"; "9000k"]
    end in
  let args := push args ["-c:a"; "aac"] in
  let args := push args ["-b:a"; "128k"] in
  let args := push args ["-ar"; "44100"] in
  let args :=
    if truthy_num (duration config) && gt_num (duration config) 0
    then push args ["-t"; String_ (to_number (duration config) * 60)]
    else args in
  let args := push args ["-f"; "flv"] in
  push args [rtmpDest config].

Definition buildFfmpegArgs (filePath : string) (config : Config)
  : list string :=
  push (push (inputOptions config) ["-i"; filePath]) (outputOptions config).

End Builder.

(** The arguments in front of the first ["-i"]. *)
Fixpoint input_side (args : list string) : list string :=
  match args with
  | [] => []
  | a :: rest => if String.eqb a "-i" then [] else a :: input_side rest
  end.

(** ** Stream state *)

Definition MAX_RECONNECT_ATTEMPTS : Z := 10.
Definition RECONNECT_DELAY_MS : Z := 5000.

Inductive Status := running | reconnecting | stopped | completed | error.

#[global] Instance Status_eq_dec : EqDecision Status.
Proof. solve_decision. Defined.

Definition status_name (s : Status) : string :=
  match s with
  | running => "running"
  | reconnecting => "reconnecting"
  | stopped => "stopped"
  | completed => "completed"
  | error => "error"
  end.

Definition is_active (s : Status) : bool :=
  match s with running | reconnecting => true | _ => false end.

Definition is_terminal (s : Status) : bool :=
  match s with stopped | completed | error => true | _ => false end.

Module Stats.
Record t := mk { time : string; loopCount : Z }.
End Stats.

(** [process] and [reconnectTimer] hold a handle or [null]. *)
Record StreamState := mkStreamState {
  process : option nat;
  status : Status;
  startedAt : Z;
  reconnectAttempts : Z;
  reconnectTimer : option nat;
  stats : Stats.t;
  config : Config
}.

Definition set_process (p : option nat) (s : StreamState) : StreamState :=
  mkStreamState p (status s) (startedAt s) (reconnectAttempts s)
                (reconnectTimer s) (stats s) (config s).

Definition set_status (st : Status) (s : StreamState) : StreamState :=
  mkStreamState (process s) st (startedAt s) (reconnectAttempts s)
                (reconnectTimer s) (stats s) (config s).

Definition set_reconnectAttempts (n : Z) (s : StreamState) : StreamState :=
  mkStreamState (process s) (status s) (startedAt s) n
                (reconnectTimer s) (stats s) (config s).

Definition set_reconnectTimer (t : option nat) (s : StreamState) : StreamState :=
  mkStreamState (process s) (status s) (startedAt s) (reconnectAttempts s)
                t (stats s) (config s).

Definition set_stats (x : Stats.t) (s : StreamState) : StreamState :=
  mkStreamState (process s) (status s) (startedAt s) (reconnectAttempts s)
                (reconnectTimer s) x (config s).

(** ** Child processes and timers *)

Inductive Signal := SIGINT | SIGKILL.

(** A child process with what the handlers installed by [spawnFfmpeg]
    captured ([p_streamId], [p_filePath], [p_config] and the address
    [p_streamState] of the state object), the [killed] flag of its
    handle, whether ['close'] has been emitted, the signals delivered to
    it, and the kill timers that the ['close'] listeners added by
    [stopStream] clear. *)
Record Proc := mkProc {
  p_streamId : string;
  p_filePath : string;
  p_config : Config;
  p_streamState : nat;
  p_args : list string;
  p_killed : bool;
  p_exited : bool;
  p_signals : list Signal;
  p_onClose : list nat
}.

(** The two timer callbacks of the module: the relaunch scheduled by
    the ['close'] handler (lines 165-169) and the forced kill armed by
    [stopStream] (lines 224-230). *)
Inductive Callback :=
  | Relaunch (streamId filePath : string) (config : Config) (streamState : nat)
  | ForceKill (stream : nat).

Record Timer := mkTimer { callback : Callback; delay : Z }.

Record World := mkWorld {
  activeStreams : gmap string nat;
  heap : list StreamState;
  procs : list Proc;
  timers : gmap nat Timer;
  nextTimer : nat
}.

Definition init : World := mkWorld ∅ [] [] ∅ 0%nat.

Definition set_activeStreams (m : gmap string nat) (w : World) : World :=
  mkWorld m (heap w) (procs w) (timers w) (nextTimer w).

Definition set_heap (h : list StreamState) (w : World) : World :=
  mkWorld (activeStreams w) h (procs w) (timers w) (nextTimer w).

Definition set_procs (ps : list Proc) (w : World) : World :=
  mkWorld (activeStreams w) (heap w) ps (timers w) (nextTimer w).

Definition update_stream (a : nat) (f : StreamState -> StreamState)
  (w : World) : World :=
  set_heap (alter f a (heap w)) w.

Definition setTimeout (cb : Callback) (ms : Z) (w : World) : nat * World :=
  (nextTimer w,
   mkWorld (activeStreams w) (heap w) (procs w)
           (<[nextTimer w := mkTimer cb ms]> (timers w)) (S (nextTimer w))).

Definition clearTimeout (t : nat) (w : World) : World :=
  mkWorld (activeStreams w) (heap w) (procs w)
          (delete t (timers w)) (nextTimer w).

(** [proc.kill(sig)]: a handle whose process has exited delivers
    nothing and keeps [killed]; otherwise the signal is sent and
    [killed] becomes true. *)
Definition kill (p : nat) (sig : Signal) (w : World) : World :=
  match procs w !! p with
  | Some pr =>
      if p_exited pr then w
      else set_procs
             (<[p := mkProc (p_streamId pr) (p_filePath pr) (p_config pr)
                            (p_streamState pr) (p_args pr) true (p_exited pr)
                            (p_signals pr ++ [sig]) (p_onClose pr)]> (procs w)) w
  | None => w
  end.

(** [proc.on('close', () => clearTimeout(t))] *)
Definition on_close_clear (p : nat) (t : nat) (w : World) : World :=
  match procs w !! p with
  | Some pr =>
      set_procs
        (<[p := mkProc (p_streamId pr) (p_filePath pr) (p_config pr)
                       (p_streamState pr) (p_args pr) (p_killed pr)
                       (p_exited pr) (p_signals pr) (p_onClose pr ++ [t])]>
           (procs w)) w
  | None => w
  end.

Definition mark_exited (p : nat) (w : World) : World :=
  match procs w !! p with
  | Some pr =>
      set_procs
        (<[p := mkProc (p_streamId pr) (p_filePath pr) (p_config pr)
                       (p_streamState pr) (p_args pr) (p_killed pr)
                       true (p_signals pr) (p_onClose pr)]> (procs w)) w
  | None => w
  end.

(** [spawn('ffmpeg', args, ...)] returning a handle, with the handlers
    of lines 133-182 attached. A call that throws instead (Node refuses
    an argument that holds a NUL character) ends the operation that made
    it before line 129 and is not modelled: the properties below that
    speak of a spawned process are about a call that returned. *)
Definition spawn (streamId filePath : string) (config : Config)
  (streamState : nat) (args : list string) (w : World) : nat * World :=
  (length (procs w),
   set_procs (procs w ++ [mkProc streamId filePath config streamState args
                                 false false [] []]) w).

(** ** Progress parsing (lines 133-153) *)

Definition is_digit (c : ascii) : bool :=
  (48 <=? nat_of_ascii c)%nat && (nat_of_ascii c <=? 57)%nat.

(** [\d{2}:\d{2}:\d{2}] against a whole string. *)
Definition is_hms (t : string) : bool :=
  match t with
  | String h1 (String h2 (String c1 (String m1 (String m2 (String c2
      (String s1 (String s2 EmptyString))))))) =>
      is_digit h1 && is_digit h2 && Ascii.eqb c1 ":"
      && is_digit m1 && is_digit m2 && Ascii.eqb c2 ":"
      && is_digit s1 && is_digit s2
  | _ => false
  end.

(** The pattern [time=(\d{2}:\d{2}:\d{2})] tried at the start of [s];
    the result is the capture group. *)
Definition match_time_here (s : string) : option string :=
  if String.prefix "time=" s && is_hms (substring 5 8 s)
  then Some (substring 5 8 s)
  else None.

(** [output.match(/time=(\d{2}:\d{2}:\d{2})/)]: the leftmost match. *)
Fixpoint match_time (output : string) : option string :=
  match match_time_here output with
  | Some t => Some t
  | None =>
      match output with
      | EmptyString => None
      | String _ rest => match_time rest
      end
  end.

(** [s.split(':')] *)
Fixpoint split_colon (s : string) : list string :=
  match s with
  | EmptyString => [EmptyString]
  | String c rest =>
      if Ascii.eqb c ":" then EmptyString :: split_colon rest
      else match split_colon rest with
           | [] => [String c EmptyString]
           | x :: xs => String c x :: xs
           end
  end.

(** [Number(s)] on a string of decimal digits. *)
Fixpoint Number_from (acc : Z) (s : string) : Z :=
  match s with
  | EmptyString => acc
  | String c rest => Number_from (acc * 10 + (Z.of_nat (nat_of_ascii c) - 48)) rest
  end.

Definition Number_ (s : string) : Z := Number_from 0 s.

(** Lines 147-148. *)
Definition elapsed_seconds (t : string) : Z :=
  let parts := map Number_ (split_colon t) in
  nth 0 parts 0 * 3600 + nth 1 parts 0 * 60 + nth 2 parts 0.

(** Line 144: the test under which the clip window counts as known. *)
Definition clip_window_known (config : Config) : bool :=
  truthy_num (Config.endTime config) && not_nullish (Config.startTime config).

(** Line 145. *)
Definition clipDuration (config : Config) : Z :=
  to_number (Config.endTime config) - to_number (Config.startTime config).

(** Lines 139-151: the effect of a matched marker on the state object;
    [config] is the configuration captured by the handler. *)
Definition record_progress (config : Config) (t : string)
  (s : StreamState) : StreamState :=
  let s := set_stats (Stats.mk t (Stats.loopCount (stats s))) s in
  let s := set_reconnectAttempts 0 s in
  if clip_window_known config
  then
    if 0 <? clipDuration config
    then set_stats (Stats.mk (Stats.time (stats s))
                             (elapsed_seconds t / clipDuration config + 1)) s
    else s
  else s.

Definition onStderrData (config : Config) (streamState : nat)
  (output : string) (w : World) : World :=
  match match_time output with
  | Some t => update_stream streamState (record_progress config t) w
  | None => w
  end.

(** ** Process lifecycle *)

Definition status_at (a : nat) (w : World) : option Status :=
  status <$> heap w !! a.

(** Lines 120-130 of [spawnFfmpeg]. *)
Definition spawnFfmpeg (streamId filePath : string) (config : Config)
  (streamState : nat) (w : World) : World :=
  let args := buildFfmpegArgs filePath config in
  let '(proc, w) := spawn streamId filePath config streamState args w in
  let w := update_stream streamState (set_process (Some proc)) w in
  update_stream streamState (set_status running) w.

(** The ['close'] handler, lines 155-177; [code] is [None] for [null]. *)
Definition onClose (streamId filePath : string) (config : Config)
  (streamState : nat) (code : option Z) (w : World) : World :=
  match heap w !! streamState with
  | None => w
  | Some s =>
      match status s, bool_decide (code = Some 0) with
      | running, false =>
          if reconnectAttempts s <? MAX_RECONNECT_ATTEMPTS
          then
            let w := update_stream streamState
                       (set_reconnectAttempts (reconnectAttempts s + 1)) w in
            let w := update_stream streamState (set_status reconnecting) w in
            let '(t, w) := setTimeout
                             (Relaunch streamId filePath config streamState)
                             RECONNECT_DELAY_MS w in
            update_stream streamState (set_reconnectTimer (Some t)) w
          else update_stream streamState (set_status error) w
      | running, true => update_stream streamState (set_status completed) w
      | _, _ => w
      end
  end.

(** The body of a timer callback. *)
Definition run_callback (cb : Callback) (w : World) : World :=
  match cb with
  | Relaunch streamId filePath config streamState =>
      match status_at streamState w with
      | Some reconnecting => spawnFfmpeg streamId filePath config streamState w
      | _ => w
      end
  | ForceKill stream =>
      match heap w !! stream with
      | Some s =>
          match process s with
          | Some p => kill p SIGKILL w
          | None => w
          end
      | None => w
      end
  end.

(** ** Public operations *)

(** [now] is the value of [Date.now()]. *)
Definition startStream (streamId filePath : string) (config : Config)
  (now : Z) (w : World) : string * World :=
  let streamState := length (heap w) in
  let w := set_heap (heap w ++
             [mkStreamState None running now 0 None
                            (Stats.mk "00:00:00" 1) config]) w in
  let w := set_activeStreams (<[streamId := streamState]> (activeStreams w)) w in
  let w := spawnFfmpeg streamId filePath config streamState w in
  (streamId, w).

(** Lines 213-217: cancel any pending reconnect; [s] is the state
    object as [stopStream] found it. *)
Definition cancel_reconnect (stream : nat) (s : StreamState) (w : World)
  : World :=
  match reconnectTimer s with
  | Some t => update_stream stream (set_reconnectTimer None) (clearTimeout t w)
  | None => w
  end.

(** Lines 219-235: interrupt the process, arm the forced kill and have
    the ['close'] event disarm it. *)
Definition terminate_process (stream : nat) (s : StreamState) (w : World)
  : World :=
  match process s with
  | Some p =>
      match procs w !! p with
      | Some pr =>
          if negb (p_killed pr)
          then
            let w := kill p SIGINT w in
            let '(killTimeout, w) := setTimeout (ForceKill stream) 5000 w in
            on_close_clear p killTimeout w
          else w
      | None => w
      end
  | None => w
  end.

Definition stopStream (streamId : string) (w : World) : bool * World :=
  match activeStreams w !! streamId with
  | None => (false, w)
  | Some stream =>
      match heap w !! stream with
      | None => (false, w)
      | Some s =>
          if negb (is_active (status s)) then (false, w)
          else
            let w := update_stream stream (set_status stopped) w in
            let w := cancel_reconnect stream s w in
            let w := terminate_process stream s w in
            (true, w)
      end
  end.

(** The object returned by [getStreamStatus]; a property that the
    returned literal does not have is [undefined]. *)
Module Report.
Record stats_t := mk_stats { time : js string; loopCount : js Z }.
Record t := mk {
  status : string;
  reconnecting : js bool;
  reconnectAttempt : js Z;
  stats : stats_t
}.
End Report.

Definition getStreamStatus (streamId : string) (w : World) : Report.t :=
  match activeStreams w !! streamId ≫= (fun a => heap w !! a) with
  | None =>
      Report.mk "not_found" undefined undefined
                (Report.mk_stats undefined undefined)
  | Some stream =>
      Report.mk
        (if bool_decide (status stream = reconnecting) then "running"
         else status_name (status stream))
        (val (bool_decide (status stream = reconnecting)))
        (val (reconnectAttempts stream))
        (Report.mk_stats (val (Stats.time (stats stream)))
                         (val (Stats.loopCount (stats stream))))
  end.

(** The body of the loop of [stopAllStreams] for one entry. *)
Definition stopAll_entry (stream : nat) (w : World) : World :=
  match heap w !! stream with
  | None => w
  | Some s =>
      if is_active (status s)
      then
        let w :=
          match reconnectTimer s with
          | Some t => clearTimeout t w
          | None => w
          end in
        let w :=
          match process s with
          | Some p =>
              match procs w !! p with
              | Some pr => if negb (p_killed pr) then kill p SIGKILL w else w
              | None => w
              end
          | None => w
          end in
        update_stream stream (set_status stopped) w
      else w
  end.

(** [for (const [id, stream] of activeStreams)]: the loop body touches
    only the entry's own state object, handle and timer. *)
Definition stopAllStreams (w : World) : World :=
  foldl (fun w entry => stopAll_entry entry.2 w) w
        (map_to_list (activeStreams w)).

(** ** Events

    Everything that runs code of the module: a call of a public
    operation, a chunk on a live process's stderr, the ['close'] or
    ['error'] event of a process, a pending timer coming due. *)
Inductive Event :=
  | Start (streamId filePath : string) (config : Config) (now : Z)
  | Stop (streamId : string)
  | StopAll
  | GetStatus (streamId : string)
  | StderrData (proc : nat) (output : string)
  | Close (proc : nat) (code : option Z)
  | ProcError (proc : nat)
  | Fire (timer : nat).

Definition step (e : Event) (w : World) : World :=
  match e with
  | Start streamId filePath config now =>
      (startStream streamId filePath config now w).2
  | Stop streamId => (stopStream streamId w).2
  | StopAll => stopAllStreams w
  | GetStatus _ => w
  | StderrData p output =>
      match procs w !! p with
      | Some pr =>
          if p_exited pr then w
          else onStderrData (p_config pr) (p_streamState pr) output w
      | None => w
      end
  | Close p code =>
      match procs w !! p with
      | Some pr =>
          if p_exited pr then w
          else
            let w := mark_exited p w in
            let w := onClose (p_streamId pr) (p_filePath pr) (p_config pr)
                             (p_streamState pr) code w in
            foldl (fun w t => clearTimeout t w) w (p_onClose pr)
      | None => w
      end
  | ProcError _ => w
  | Fire t =>
      match timers w !! t with
      | Some tm => run_callback (callback tm) (clearTimeout t w)
      | None => w
      end
  end.

Definition run (evs : list Event) (w : World) : World :=
  foldl (fun w e => step e w) w evs.

Definition reachable (w : World) : Prop :=
  exists evs, w = run evs init.


Definition is_start (e : Event) : bool :=
  match e with Start _ _ _ _ => true | _ => false end.

(** ** Sample inputs and the specification's wording *)

Definition sample_config : Config :=
  Config.mk (val false) (val 3) (val 10) (val 55) (val 2)
            (val "720p") (val "16:9") (val (FrNum 30)) (val (BrNum 2500))
            "rtmp://x/live/" (val "key").

(** The destination as the specification words it: the base URL with a
    trailing slash stripped, plus the key as a further path segment when
    one is configured. *)
Definition spec_destination (config : Config) : string :=
  strip_trailing_slash (Config.rtmpUrl config) +:+
  (if truthy_str (Config.streamKey config)
   then "/" +:+ str_of (Config.streamKey config)
   else "").

Definition keyless_config : Config :=
  Config.mk undefined undefined undefined undefined undefined undefined
            undefined undefined undefined "rtmp://x/live/" undefined.

(** The value of a decimal digit and of a two-digit field. *)
Definition digit_value (c : ascii) : Z := Z.of_nat (nat_of_ascii c) - 48.

Definition two_digits (c1 c2 : ascii) : Z :=
  digit_value c1 * 10 + digit_value c2.

Definition clip_config : Config :=
  Config.mk undefined (val (-1)) (val 0) (val 45) undefined undefined
            undefined undefined (val BrAuto) "rtmp://x/live" undefined.

Definition progress_line : string :=
  "frame= 2250 fps= 25 q=23.0 size=   11264kB time=00:01:30.04 bitrate=1025.1kbits/s".

(** The state object each process was spawned for, in spawn order. *)
Definition owners (w : World) : list nat := map p_streamState (procs w).

(** The number of processes spawned so far for the state object at [a]. *)
Definition spawn_count (a : nat) (w : World) : nat :=
  length (filter (fun o => o = a) (owners w)).

(** The state object at [a] has status [st] and [n] processes have been
    spawned for it. *)
Definition settled (a : nat) (st : Status) (n : nat) (w : World) : Prop :=
  status_at a w = Some st /\ spawn_count a w = n.

(** ** Well-formed worlds

    What every world reached from [init] satisfies: registry entries
    point into the heap and never share a state object; the process
    handle of a state object was spawned for that object; an active
    stream's handle has not been signalled; a pending forced kill and
    a ['close'] listener added by [stopStream] belong to a stopped
    stream; timer ids are below the next id. *)
Record wf (w : World) : Prop := mk_wf {
  wf_registry_bound :
    forall id a, activeStreams w !! id = Some a -> (a < length (heap w))%nat;
  wf_registry_inj :
    forall id1 id2 a,
      activeStreams w !! id1 = Some a -> activeStreams w !! id2 = Some a ->
      id1 = id2;
  wf_process_owner :
    forall a s p,
      heap w !! a = Some s -> process s = Some p ->
      exists pr, procs w !! p = Some pr /\ p_streamState pr = a;
  wf_active_not_killed :
    forall a s p pr,
      heap w !! a = Some s -> is_active (status s) = true ->
      process s = Some p -> procs w !! p = Some pr -> p_killed pr = false;
  wf_forcekill_stopped :
    forall t a d,
      timers w !! t = Some (mkTimer (ForceKill a) d) ->
      status_at a w = Some stopped;
  wf_timer_bound :
    forall t tm, timers w !! t = Some tm -> (t < nextTimer w)%nat;
  wf_listener_stopped :
    forall p pr,
      procs w !! p = Some pr -> p_onClose pr <> [] ->
      status_at (p_streamState pr) w = Some stopped
}.

(** A stream started and then stopped by its operator. *)
Definition stopped_world : World :=
  run [Start "s1" "clip.mp4" clip_config 0; Stop "s1"] init.

(** A stream whose process failed once and that waits for its relaunch. *)
Definition reconnecting_world : World :=
  run [Start "s1" "clip.mp4" clip_config 0; Close 0%nat (Some 1)] init.

(** A stream whose process is up. *)
Definition running_world : World :=
  run [Start "s1" "clip.mp4" clip_config 0] init.

Definition reconnecting_state : StreamState :=
  mkStreamState (Some 0%nat) reconnecting 0 1 (Some 0%nat)
                (Stats.mk "00:00:00" 1) clip_config.

Definition running_state : StreamState :=
  mkStreamState (Some 0%nat) running 0 0 None
                (Stats.mk "00:00:00" 1) clip_config.

(** The declared shape of a status report: besides [status] and
    [stats], which every report has, a boolean [reconnecting] and a
    number [reconnectAttempt]. *)
Definition has_declared_shape (r : Report.t) : bool :=
  match Report.reconnecting r, Report.reconnectAttempt r with
  | val _, val _ => true
  | _, _ => false
  end.

(** What [getStreamStatus] answers for an id that is not registered. *)
Definition not_found_report : Report.t :=
  Report.mk "not_found" undefined undefined
            (Report.mk_stats undefined undefined).

(** Whether [startStream] was called with [id] in the course of [evs]. *)
Definition started (id : string) (evs : list Event) : bool :=
  existsb (fun e => match e with
                    | Start id' _ _ _ => String.eqb id id'
                    | _ => false
                    end) evs.

(** One relaunch cycle per failed attempt: process [i] exits with code 1
    and timer [i] comes due. *)
Definition retries (n : nat) : list Event :=
  flat_map (fun i => [Close i (Some 1); Fire i]) (seq 0 n).

(** A stream whose process has failed [MAX_RECONNECT_ATTEMPTS] times in
    a row and runs its last attempt. *)
Definition exhausted_world : World :=
  run (Start "s1" "clip.mp4" clip_config 0 :: retries 10) init.

Definition exhausted_state : StreamState :=
  mkStreamState (Some 10%nat) running 0 10 (Some 9%nat)
                (Stats.mk "00:00:00" 1) clip_config.




(** A first stream on id ["s1"], replaced by a second start on that id. *)
Definition restarted_world : World :=
  (startStream "s1" "other.mp4" sample_config 7 running_world).2.

(** A configuration that trims the input and does not loop. *)
Definition trim_config : Config :=
  Config.mk undefined undefined (val 10) (val 55) (val 2) undefined
            undefined undefined (val (BrNum 0)) "rtmp://x/live" undefined.

(** The video bitrate in kbps that lines 89-97 settle on. *)
Definition effective_bitrate (config : Config) : Z :=
  match Config.bitrate config with
  | val (BrNum n) => if n =? 0 then 4500 else n
  | _ => 4500
  end.

(** The state object that [startStream] creates (lines 186-197). *)
Definition fresh_state (now : Z) (config : Config) : StreamState :=
  mkStreamState None running now 0 None (Stats.mk "00:00:00" 1) config.

(** The heap of [w'] extends that of [w]: no state object is lost, each
    one that was there is related by [R] to what it was, and each new
    one is related by [R] to a fresh state. *)
Definition evolves (R : StreamState -> StreamState -> Prop) (w w' : World)
  : Prop :=
  (length (heap w) <= length (heap w'))%nat /\
  forall a s',
    heap w' !! a = Some s' ->
    (exists s, heap w !! a = Some s /\ R s s') \/
    (heap w !! a = None /\ exists now c, R (fresh_state now c) s').

(** The bounds the counters of a state object stay within. *)
Definition within_bounds (s : StreamState) : Prop :=
  0 <= reconnectAttempts s <= MAX_RECONNECT_ATTEMPTS /\
  1 <= Stats.loopCount (stats s).

(** What never changes in a state object. *)
Definition same_identity (s s' : StreamState) : Prop :=
  startedAt s' = startedAt s /\ config s' = config s.

(** What may happen to a process handle over time: the variables its
    handlers captured and its arguments stay; signals are only added,
    and none once the process has exited; [killed] and [exited] are
    never taken back. *)
Definition proc_history (pr pr' : Proc) : Prop :=
  p_streamId pr' = p_streamId pr /\
  p_filePath pr' = p_filePath pr /\
  p_config pr' = p_config pr /\
  p_streamState pr' = p_streamState pr /\
  p_args pr' = p_args pr /\
  p_signals pr `prefix_of` p_signals pr' /\
  (p_exited pr = true ->
   p_exited pr' = true /\ p_signals pr' = p_signals pr) /\
  (p_killed pr = true -> p_killed pr' = true).

(** The handle that [spawnFfmpeg] creates. *)
Definition spawned_proc (streamId filePath : string) (config : Config)
  (streamState : nat) : Proc :=
  mkProc streamId filePath config streamState
         (buildFfmpegArgs filePath config) false false [] [].

(** The processes of [w'] extend those of [w]: none is lost, each old
    one has a history from what it was, each new one a history from a
    handle created by [spawnFfmpeg]. *)
Definition procs_evolve (w w' : World) : Prop :=
  (length (procs w) <= length (procs w'))%nat /\
  forall p pr',
    procs w' !! p = Some pr' ->
    (exists pr, procs w !! p = Some pr /\ proc_history pr pr') \/
    (procs w !! p = None /\
     exists sid f c a, proc_history (spawned_proc sid f c a) pr').

(** How live processes and streams correspond in a reachable world: a
    process that has not exited is the current process of the stream
    state it was spawned for, and that state is [running] or
    [stopped]. *)
Record live_inv (w : World) : Prop := mk_live_inv {
  li_live_is_current :
    forall p pr,
      procs w !! p = Some pr -> p_exited pr = false ->
      exists s, heap w !! p_streamState pr = Some s /\
                process s = Some p /\
                (status s = running \/ status s = stopped)
}.

(** * Properties *)

(** ** The argument builder *)

Example build_sample :
  buildFfmpegArgs "in.mp4" sample_config =
  [ "-re"; "-stream_loop"; "2"; "-ss"; "10"; "-i"; "in.mp4";
    "-c:v"; "libx264"; "-preset"; "veryfast"; "-tune"; "zerolatency";
    "-vf"; "scale=1280:720,setdar=16/9"; "-r"; "30";
    "-b:v"; "2500k"; "-maxrate"; "2500k"; "-bufsize"; "5000k";
    "-c:a"; "aac"; "-b:a"; "128k"; "-ar"; "44100";
    "-t"; "120"; "-f"; "flv"; "rtmp://x/live/key" ].
Proof. reflexivity. Qed.

(** [String(n)] starts with a digit, or with a minus sign followed by a
    digit, so it is never one of the option flags. *)
Lemma String_not_flag (n : Z) (c : ascii) :
  is_digit c = false -> String_ n <> String "-" (String c EmptyString).
Proof.
  intros Hc. unfold String_.
  destruct n as [|p|p]; cbn.
  - discriminate.
  - destruct (Pos.to_uint p); cbn; discriminate.
  - destruct (Pos.to_uint p) as [|d|d|d|d|d|d|d|d|d|d]; cbn;
      intros [= <-]; discriminate.
Qed.

Lemma input_side_app (pre rest : list string) :
  ~ In "-i" pre -> input_side (pre ++ "-i" :: rest) = pre.
Proof.
  induction pre as [|a pre IH]; intros Hnot; cbn.
  - reflexivity.
  - destruct (String.eqb_spec a "-i") as [->|Hne].
    + exfalso. apply Hnot. now left.
    + f_equal. apply IH. intros Hin. apply Hnot. now right.
Qed.

Lemma inputOptions_no_input_marker (config : Config) :
  ~ In "-i" (inputOptions config).
Proof.
  pose proof (fun n => String_not_flag n "i" eq_refl) as HS.
  unfold inputOptions, push.
  repeat match goal with
         | |- context [if ?b then _ else _] => destruct b
         end; cbn; intros Hin;
    repeat match goal with
           | H : _ \/ _ |- _ => destruct H
           | H : False |- _ => destruct H
           | H : String_ _ = _ |- _ => now apply HS in H
           | H : _ = _ |- _ => discriminate H
           end.
Qed.

(** The arguments in front of the input marker are exactly the input
    options, and the marker is followed by the file path. *)
Lemma input_side_build (filePath : string) (config : Config) :
  input_side (buildFfmpegArgs filePath config) = inputOptions config.
Proof.
  unfold buildFfmpegArgs, push. rewrite <- app_assoc. cbn [app].
  apply input_side_app, inputOptions_no_input_marker.
Qed.

(** C1: with [loopCount > 1] and [endTime > startTime], no ["-t"]
    occurs among the arguments that precede the ["-i"] input marker of
    the list built by [buildFfmpegArgs]. *)
Theorem loop_suppresses_input_duration_cap (filePath : string) (config : Config) :
  gt_num (Config.loopCount config) 1 = true ->
  gt_js (Config.endTime config) (Config.startTime config) = true ->
  ~ In "-t" (input_side (buildFfmpegArgs filePath config)).
Proof.
  intros Hloop _. rewrite input_side_build.
  pose proof (fun n => String_not_flag n "t" eq_refl) as HS.
  unfold inputOptions, isLooping, push. rewrite Hloop.
  rewrite orb_true_r. cbn [negb andb].
  repeat match goal with
         | |- context [if ?b then _ else _] => destruct b
         end; cbn; intros Hin;
    repeat match goal with
           | H : _ \/ _ |- _ => destruct H
           | H : False |- _ => destruct H
           | H : String_ _ = _ |- _ => now apply HS in H
           | H : _ = _ |- _ => discriminate H
           end.
Qed.

Lemma loop_suppresses_input_duration_cap_witness :
  gt_num (Config.loopCount sample_config) 1 = true /\
  gt_js (Config.endTime sample_config) (Config.startTime sample_config) = true /\
  ~ In "-t" (input_side (buildFfmpegArgs "in.mp4" sample_config)).
Proof.
  split; [reflexivity|]. split; [reflexivity|].
  apply loop_suppresses_input_duration_cap; reflexivity.
Defined.

(** [strip_trailing_slash] removes one final slash and nothing else. *)
Lemma strip_trailing_slash_spec (s : string) :
  (s = strip_trailing_slash s +:+ "/") \/
  (strip_trailing_slash s = s /\ forall b, s <> b +:+ "/").
Proof.
  induction s as [|c s IH].
  - right. split; [reflexivity|]. intros [|? ?]; discriminate.
  - destruct s as [|c' s'].
    + cbn. destruct (Ascii.eqb_spec c "/") as [->|Hne].
      * now left.
      * right. split; [reflexivity|].
        intros [|x [|y b]]; cbn; intros [= ]; congruence.
    + change (strip_trailing_slash (String c (String c' s')))
        with (String c (strip_trailing_slash (String c' s'))).
      destruct IH as [IH|[IH Hno]].
      * left.
        change (String c (String c' s') =
                String c (strip_trailing_slash (String c' s') +:+ "/")).
        now f_equal.
      * right. rewrite IH. split; [reflexivity|].
        intros [|x b]; cbn; intros [= ]; subst.
        eapply Hno; eassumption.
Qed.

Lemma last_build (filePath : string) (config : Config) :
  last (buildFfmpegArgs filePath config) = Some (rtmpDest config).
Proof.
  unfold buildFfmpegArgs, outputOptions, push.
  rewrite !app_assoc. apply last_snoc.
Qed.

(** C7, as stated, fails: without a stream key the base URL is passed
    on unchanged, trailing slash included. *)
Lemma destination_keeps_slash_without_key :
  last (buildFfmpegArgs "in.mp4" keyless_config) = Some "rtmp://x/live/" /\
  spec_destination keyless_config = "rtmp://x/live" /\
  last (buildFfmpegArgs "in.mp4" keyless_config)
    <> Some (spec_destination keyless_config).
Proof. repeat split; try reflexivity. discriminate. Qed.

(** C7 (amended): the final argument is the destination. With a
    non-empty stream key it is the base URL without one trailing slash,
    then ["/"] and the key; with no key it is the base URL as given. *)
Theorem destination_is_last (filePath : string) (config : Config) :
  exists base,
    (Config.rtmpUrl config = base +:+ "/" \/
     (Config.rtmpUrl config = base /\ forall b, base <> b +:+ "/")) /\
    last (buildFfmpegArgs filePath config) =
      Some (if truthy_str (Config.streamKey config)
            then base +:+ "/" +:+ str_of (Config.streamKey config)
            else Config.rtmpUrl config).
Proof.
  exists (strip_trailing_slash (Config.rtmpUrl config)). split.
  - destruct (strip_trailing_slash_spec (Config.rtmpUrl config)) as [H|[H Hno]].
    + now left.
    + right. rewrite H. now split.
  - rewrite last_build. reflexivity.
Qed.

(** ** Progress parsing *)

Lemma digit_not_colon (c : ascii) : is_digit c = true -> Ascii.eqb c ":" = false.
Proof.
  intros H. destruct (Ascii.eqb_spec c ":") as [->|]; [discriminate|reflexivity].
Qed.

Lemma match_time_here_is_hms (s t : string) :
  match_time_here s = Some t -> is_hms t = true.
Proof.
  unfold match_time_here.
  destruct (String.prefix _ _ && is_hms _) eqn:E; [|discriminate].
  intros [= <-]. apply andb_true_iff in E. tauto.
Qed.

Lemma match_time_is_hms (output t : string) :
  match_time output = Some t -> is_hms t = true.
Proof.
  induction output as [|c output IH].
  - change (match_time "") with
      (match match_time_here "" with Some t => Some t | None => None end).
    destruct (match_time_here "") eqn:E; [|discriminate].
    intros [= <-]. eapply match_time_here_is_hms, E.
  - change (match_time (String c output)) with
      (match match_time_here (String c output) with
       | Some t => Some t
       | None => match_time output
       end).
    destruct (match_time_here (String c output)) eqn:E; [|exact IH].
    intros [= <-]. eapply match_time_here_is_hms, E.
Qed.

(** A matched marker reads as hours, minutes and seconds. *)
Lemma elapsed_seconds_hms (t : string) :
  is_hms t = true ->
  exists h1 h2 m1 m2 s1 s2,
    t = String h1 (String h2 (String ":" (String m1 (String m2 (String ":"
          (String s1 (String s2 EmptyString))))))) /\
    elapsed_seconds t =
      two_digits h1 h2 * 3600 + two_digits m1 m2 * 60 + two_digits s1 s2.
Proof.
  destruct t as [|h1 [|h2 [|c1 [|m1 [|m2 [|c2 [|s1 [|s2 [|? ?]]]]]]]]];
    try discriminate.
  cbn [is_hms]. rewrite !andb_true_iff.
  intros [[[[[[[H1 H2] C1] M1] M2] C2] S1] S2].
  apply Ascii.eqb_eq in C1, C2. subst c1 c2.
  exists h1, h2, m1, m2, s1, s2. split; [reflexivity|].
  apply digit_not_colon in H1, H2, M1, M2, S1, S2.
  unfold elapsed_seconds.
  repeat (cbn; rewrite ?H1, ?H2, ?M1, ?M2, ?S1, ?S2).
  unfold two_digits, digit_value. lia.
Qed.

(** What a matched marker leaves alone and what it sets. *)
Lemma record_progress_fields c t s :
  status (record_progress c t s) = status s /\
  process (record_progress c t s) = process s /\
  reconnectAttempts (record_progress c t s) = 0 /\
  Stats.time (stats (record_progress c t s)) = t.
Proof. unfold record_progress. by repeat case_match. Qed.



(** ** The supervisor: effect of the primitive steps *)

Lemma heap_kill p sig w : heap (kill p sig w) = heap w.
Proof. unfold kill. repeat case_match; reflexivity. Qed.

Lemma timers_kill p sig w : timers (kill p sig w) = timers w.
Proof. unfold kill. repeat case_match; reflexivity. Qed.

Lemma nextTimer_kill p sig w : nextTimer (kill p sig w) = nextTimer w.
Proof. unfold kill. repeat case_match; reflexivity. Qed.

Lemma activeStreams_kill p sig w : activeStreams (kill p sig w) = activeStreams w.
Proof. unfold kill. repeat case_match; reflexivity. Qed.

Lemma heap_on_close_clear p t w : heap (on_close_clear p t w) = heap w.
Proof. unfold on_close_clear. repeat case_match; reflexivity. Qed.

Lemma timers_on_close_clear p t w : timers (on_close_clear p t w) = timers w.
Proof. unfold on_close_clear. repeat case_match; reflexivity. Qed.

Lemma nextTimer_on_close_clear p t w :
  nextTimer (on_close_clear p t w) = nextTimer w.
Proof. unfold on_close_clear. repeat case_match; reflexivity. Qed.

Lemma activeStreams_on_close_clear p t w :
  activeStreams (on_close_clear p t w) = activeStreams w.
Proof. unfold on_close_clear. repeat case_match; reflexivity. Qed.

Lemma heap_mark_exited p w : heap (mark_exited p w) = heap w.
Proof. unfold mark_exited. repeat case_match; reflexivity. Qed.

Lemma timers_mark_exited p w : timers (mark_exited p w) = timers w.
Proof. unfold mark_exited. repeat case_match; reflexivity. Qed.

Lemma nextTimer_mark_exited p w : nextTimer (mark_exited p w) = nextTimer w.
Proof. unfold mark_exited. repeat case_match; reflexivity. Qed.

Lemma activeStreams_mark_exited p w :
  activeStreams (mark_exited p w) = activeStreams w.
Proof. unfold mark_exited. repeat case_match; reflexivity. Qed.

Ltac simpl_world :=
  rewrite ?heap_kill, ?timers_kill, ?nextTimer_kill, ?activeStreams_kill,
    ?heap_on_close_clear, ?timers_on_close_clear, ?nextTimer_on_close_clear,
    ?activeStreams_on_close_clear, ?heap_mark_exited, ?timers_mark_exited,
    ?nextTimer_mark_exited, ?activeStreams_mark_exited.

(** A lookup in an altered heap goes back to the heap before. *)
Lemma lookup_alter_inv (f : StreamState -> StreamState) (a b : nat)
  (h : list StreamState) (s' : StreamState) :
  alter f a h !! b = Some s' ->
  exists s, h !! b = Some s /\ ((b = a /\ s' = f s) \/ (b <> a /\ s' = s)).
Proof.
  destruct (decide (a = b)) as [->|Hne].
  - rewrite list_lookup_alter_eq.
    destruct (h !! b) as [s|]; cbn; [|discriminate].
    intros [= <-]. eauto.
  - rewrite list_lookup_alter_ne by done. intros H. exists s'. eauto.
Qed.

(** A lookup among the processes after one handle was replaced. *)
Lemma lookup_insert_inv (p q : nat) (y pr : Proc) (l : list Proc) :
  <[p := y]> l !! q = Some pr ->
  (q = p /\ pr = y /\ is_Some (l !! p)) \/ (q <> p /\ l !! q = Some pr).
Proof.
  destruct (decide (p = q)) as [->|Hne].
  - intros H. left.
    assert (Hlt : (q < length l)%nat).
    { apply lookup_lt_Some in H. now rewrite length_insert in H. }
    rewrite list_lookup_insert_eq in H by done.
    split; [done|]. split; [congruence|]. now apply lookup_lt_is_Some.
  - rewrite list_lookup_insert_ne by done. eauto.
Qed.

(** The three handle updates keep every handle's captured variables;
    [kill] may set [killed], [on_close_clear] may add a listener. *)
Lemma procs_kill_inv p sig w q pr' :
  procs (kill p sig w) !! q = Some pr' ->
  exists pr, procs w !! q = Some pr /\
             p_streamState pr' = p_streamState pr /\
             p_onClose pr' = p_onClose pr /\
             p_exited pr' = p_exited pr /\
             (q <> p -> pr' = pr).
Proof.
  unfold kill. destruct (procs w !! p) as [pr0|] eqn:E; [|by eauto 10].
  destruct (p_exited pr0) eqn:Ex; [by eauto 10|]. cbn.
  intros [(-> & -> & _)|(Hne & H)]%lookup_insert_inv.
  - exists pr0. cbn.
    repeat split; first [done | congruence | intros H; by destruct H].
  - eauto 10.
Qed.

Lemma procs_on_close_clear_inv p t w q pr' :
  procs (on_close_clear p t w) !! q = Some pr' ->
  exists pr, procs w !! q = Some pr /\
             p_streamState pr' = p_streamState pr /\
             p_killed pr' = p_killed pr /\
             (q <> p -> pr' = pr).
Proof.
  unfold on_close_clear. destruct (procs w !! p) as [pr0|] eqn:E; [|by eauto 10].
  cbn. intros [(-> & -> & _)|(Hne & H)]%lookup_insert_inv.
  - exists pr0. cbn.
    repeat split; first [done | congruence | intros H; by destruct H].
  - eauto 10.
Qed.

Lemma procs_mark_exited_inv p w q pr' :
  procs (mark_exited p w) !! q = Some pr' ->
  exists pr, procs w !! q = Some pr /\
             p_streamState pr' = p_streamState pr /\
             p_killed pr' = p_killed pr /\
             p_onClose pr' = p_onClose pr.
Proof.
  unfold mark_exited. destruct (procs w !! p) as [pr0|] eqn:E; [|by eauto 10].
  cbn. intros [(-> & -> & _)|(Hne & H)]%lookup_insert_inv.
  - exists pr0. cbn.
    repeat split; first [done | congruence | intros H; by destruct H].
  - eauto 10.
Qed.

Lemma status_at_update a b f w :
  status_at b (update_stream a f w) =
  if decide (a = b) then (fun s => status (f s)) <$> heap w !! a
  else status_at b w.
Proof.
  unfold status_at, update_stream; cbn. rewrite list_lookup_alter.
  destruct (decide (a = b)); [|done].
  by destruct (heap w !! a).
Qed.

(** ** Preservation of well-formedness by the primitive steps *)

Lemma wf_update_stream a f w :
  wf w ->
  (forall s, heap w !! a = Some s ->
     process (f s) = process s /\
     (status s = stopped -> status (f s) = stopped) /\
     (is_active (status (f s)) = true -> is_active (status s) = true)) ->
  wf (update_stream a f w).
Proof.
  intros [H1 H2 H3 H4 H5 H6 H7] Hf. split; cbn.
  - intros id b Hb. rewrite length_alter. eauto.
  - exact H2.
  - intros b s' p (s & Hs & [[-> ->]|[_ ->]])%lookup_alter_inv Hp; eauto.
    destruct (Hf _ Hs) as (Hp' & _). rewrite Hp' in Hp. eauto.
  - intros b s' p pr (s & Hs & [[-> ->]|[_ ->]])%lookup_alter_inv Ha Hp Hpr;
      eauto.
    destruct (Hf _ Hs) as (Hp' & _ & Hact). rewrite Hp' in Hp. eauto.
  - intros t b d Ht. specialize (H5 _ _ _ Ht).
    rewrite status_at_update. destruct (decide (a = b)) as [->|]; [|done].
    unfold status_at in H5. destruct (heap w !! b) as [s|] eqn:Hs; [|done].
    cbn in *. f_equal. apply Hf; congruence.
  - exact H6.
  - intros p pr Hpr Hne. specialize (H7 _ _ Hpr Hne).
    rewrite status_at_update.
    destruct (decide (a = p_streamState pr)) as [->|]; [|done].
    unfold status_at in H7.
    destruct (heap w !! p_streamState pr) as [s|] eqn:Hs; [|done].
    cbn in *. f_equal. apply Hf; congruence.
Qed.

Lemma wf_setTimeout cb d w :
  wf w ->
  (forall a, cb = ForceKill a -> status_at a w = Some stopped) ->
  wf (setTimeout cb d w).2.
Proof.
  intros [H1 H2 H3 H4 H5 H6 H7] Hcb. split; cbn; try done.
  - intros t a d'. rewrite lookup_insert.
    destruct (decide (nextTimer w = t)) as [->|]; [|by eauto].
    intros [= -> ->]. by apply Hcb.
  - intros t tm. rewrite lookup_insert.
    destruct (decide (nextTimer w = t)) as [->|]; [lia|].
    intros Ht. apply H6 in Ht. lia.
Qed.

Lemma wf_clearTimeout t w : wf w -> wf (clearTimeout t w).
Proof.
  intros [H1 H2 H3 H4 H5 H6 H7]. split; cbn; try done.
  - intros t' a d Ht. apply lookup_delete_Some in Ht as [_ Ht]. eauto.
  - intros t' tm Ht. apply lookup_delete_Some in Ht as [_ Ht]. eauto.
Qed.

Lemma wf_kill p sig w :
  wf w ->
  (forall pr s, procs w !! p = Some pr ->
                heap w !! p_streamState pr = Some s ->
                is_active (status s) = false) ->
  wf (kill p sig w).
Proof.
  intros [H1 H2 H3 H4 H5 H6 H7] Hp.
  split; unfold status_at in *; simpl_world; try done.
  - intros a s q Hs Hq. destruct (H3 _ _ _ Hs Hq) as (pr & Hpr & Ho).
    destruct (procs (kill p sig w) !! q) as [pr'|] eqn:E.
    + apply procs_kill_inv in E as (pr0 & ? & ? & _). naive_solver.
    + apply lookup_ge_None in E. apply lookup_lt_Some in Hpr.
      unfold kill in E. repeat case_match; cbn in E;
        rewrite ?length_insert in E; lia.
  - intros a s q pr' Hs Ha Hq (pr & Hpr & Ho & _ & _ & Hne)%procs_kill_inv.
    destruct (decide (q = p)) as [->|Hqp].
    + destruct (H3 _ _ _ Hs Hq) as (pr1 & Hpr1 & Ho1).
      assert (pr1 = pr) as -> by congruence. subst a.
      specialize (Hp _ _ Hpr Hs). congruence.
    + rewrite (Hne Hqp). eauto.
  - intros q pr' (pr & Hpr & Ho & Hc & _)%procs_kill_inv Hne.
    rewrite Ho. apply (H7 _ _ Hpr). congruence.
Qed.

Lemma wf_on_close_clear p t w :
  wf w ->
  (forall pr, procs w !! p = Some pr ->
              status_at (p_streamState pr) w = Some stopped) ->
  wf (on_close_clear p t w).
Proof.
  intros [H1 H2 H3 H4 H5 H6 H7] Hp.
  split; unfold status_at in *; simpl_world; try done.
  - intros a s q Hs Hq. destruct (H3 _ _ _ Hs Hq) as (pr & Hpr & Ho).
    destruct (procs (on_close_clear p t w) !! q) as [pr'|] eqn:E.
    + apply procs_on_close_clear_inv in E as (pr0 & ? & ? & _). naive_solver.
    + apply lookup_ge_None in E. apply lookup_lt_Some in Hpr.
      unfold on_close_clear in E. repeat case_match; cbn in E;
        rewrite ?length_insert in E; lia.
  - intros a s q pr' Hs Ha Hq (pr & Hpr & _ & Hk & _)%procs_on_close_clear_inv.
    rewrite Hk. eauto.
  - intros q pr' (pr & Hpr & Ho & _ & Hne)%procs_on_close_clear_inv Hl.
    rewrite Ho. destruct (decide (q = p)) as [->|Hqp].
    + by apply Hp.
    + rewrite (Hne Hqp) in Hl. eauto.
Qed.

Lemma wf_mark_exited p w : wf w -> wf (mark_exited p w).
Proof.
  intros [H1 H2 H3 H4 H5 H6 H7].
  split; unfold status_at in *; simpl_world; try done.
  - intros a s q Hs Hq. destruct (H3 _ _ _ Hs Hq) as (pr & Hpr & Ho).
    destruct (procs (mark_exited p w) !! q) as [pr'|] eqn:E.
    + apply procs_mark_exited_inv in E as (pr0 & ? & ? & _). naive_solver.
    + apply lookup_ge_None in E. apply lookup_lt_Some in Hpr.
      unfold mark_exited in E. repeat case_match; cbn in E;
        rewrite ?length_insert in E; lia.
  - intros a s q pr' Hs Ha Hq (pr & Hpr & _ & Hk & _)%procs_mark_exited_inv.
    rewrite Hk. eauto.
  - intros q pr' (pr & Hpr & Ho & _ & Hc)%procs_mark_exited_inv Hl.
    rewrite Ho. apply (H7 _ _ Hpr). congruence.
Qed.

(** ** [spawnFfmpeg] *)

Lemma heap_spawnFfmpeg sid f c a w :
  heap (spawnFfmpeg sid f c a w) =
  alter (set_status running) a
        (alter (set_process (Some (length (procs w)))) a (heap w)).
Proof. reflexivity. Qed.

Lemma procs_spawnFfmpeg sid f c a w :
  procs (spawnFfmpeg sid f c a w) =
  (procs w ++ [mkProc sid f c a (buildFfmpegArgs f c) false false [] []])%list.
Proof. reflexivity. Qed.

Lemma lookup_spawnFfmpeg_inv sid f c a w b s' :
  heap (spawnFfmpeg sid f c a w) !! b = Some s' ->
  exists s, heap w !! b = Some s /\
    ((b = a /\ s' = set_status running (set_process (Some (length (procs w))) s))
     \/ (b <> a /\ s' = s)).
Proof.
  rewrite heap_spawnFfmpeg.
  intros (s1 & (s & Hs & Hc1)%lookup_alter_inv & Hc2)%lookup_alter_inv.
  exists s. split; [done|].
  destruct Hc2 as [[-> ->]|[Hne ->]], Hc1 as [[? ->]|[? ->]]; try done; eauto.
Qed.

Lemma status_at_spawnFfmpeg_ne sid f c a w b :
  b <> a -> status_at b (spawnFfmpeg sid f c a w) = status_at b w.
Proof.
  intros Hne. unfold status_at. rewrite heap_spawnFfmpeg.
  by rewrite !list_lookup_alter_ne.
Qed.

Lemma status_at_spawnFfmpeg_eq sid f c a w :
  status_at a (spawnFfmpeg sid f c a w) =
  (fun _ => running) <$> heap w !! a.
Proof.
  unfold status_at. rewrite heap_spawnFfmpeg.
  rewrite !list_lookup_alter_eq. by destruct (heap w !! a).
Qed.

Lemma lookup_snoc_inv {A : Type} (l : list A) (x y : A) (i : nat) :
  (l ++ [x])%list !! i = Some y ->
  (l !! i = Some y) \/ (i = length l /\ y = x).
Proof.
  intros H. destruct (decide (i < length l)%nat) as [Hlt|Hge].
  - left. by rewrite lookup_app_l in H.
  - right. rewrite lookup_app_r in H by lia.
    destruct (i - length l)%nat as [|k] eqn:E; cbn in H; [|done].
    split; [lia|congruence].
Qed.

Lemma wf_spawnFfmpeg sid f c a w :
  wf w ->
  (forall s, heap w !! a = Some s -> is_active (status s) = true) ->
  wf (spawnFfmpeg sid f c a w).
Proof.
  intros [H1 H2 H3 H4 H5 H6 H7] Hact.
  assert (Hstopped : forall b, status_at b w = Some stopped ->
                     status_at b (spawnFfmpeg sid f c a w) = Some stopped).
  { intros b Hb. destruct (decide (b = a)) as [->|Hne].
    - unfold status_at in Hb. destruct (heap w !! a) as [s|] eqn:Hs; [|done].
      specialize (Hact _ eq_refl). cbn in Hb. injection Hb as Hb.
      rewrite Hb in Hact. discriminate.
    - by rewrite status_at_spawnFfmpeg_ne. }
  split.
  - intros id b Hb. rewrite heap_spawnFfmpeg, !length_alter. eauto.
  - exact H2.
  - intros b s' p (s & Hs & [[-> ->]|[Hne ->]])%lookup_spawnFfmpeg_inv Hp;
      rewrite procs_spawnFfmpeg.
    + cbn in Hp. injection Hp as <-. eexists. split.
      * rewrite lookup_app_r by lia. by rewrite Nat.sub_diag.
      * reflexivity.
    + destruct (H3 _ _ _ Hs Hp) as (pr & Hpr & Ho).
      exists pr. split; [|done]. by apply lookup_app_l_Some.
  - intros b s' p pr (s & Hs & [[-> ->]|[Hne ->]])%lookup_spawnFfmpeg_inv
      Ha Hp; rewrite procs_spawnFfmpeg.
    + cbn in Hp. injection Hp as <-.
      rewrite lookup_app_r by lia. rewrite Nat.sub_diag. by intros [= <-].
    + intros [Hpr|[-> ->]]%lookup_snoc_inv; [eauto|done].
  - intros t b d Ht. apply Hstopped. eauto.
  - exact H6.
  - intros p pr. rewrite procs_spawnFfmpeg.
    intros [Hpr|[-> ->]]%lookup_snoc_inv Hne; [|done].
    apply Hstopped. eauto.
Qed.

(** ** Handlers and public operations keep worlds well-formed *)

Lemma wf_onStderrData c a output w : wf w -> wf (onStderrData c a output w).
Proof.
  intros Hw. unfold onStderrData. destruct (match_time output); [|done].
  apply wf_update_stream; [done|].
  intros s0 _. unfold record_progress. repeat case_match; cbn; done.
Qed.

Lemma wf_onClose sid f c a code w : wf w -> wf (onClose sid f c a code w).
Proof.
  intros Hw. unfold onClose.
  destruct (heap w !! a) as [s|] eqn:Hs; [|done].
  destruct (status s) eqn:Hst; try done.
  destruct (bool_decide (code = Some 0)).
  - apply wf_update_stream; [done|]. intros s' Hs'. cbn.
    assert (s' = s) as -> by congruence. rewrite Hst. done.
  - destruct (reconnectAttempts s <? MAX_RECONNECT_ATTEMPTS).
    + destruct (setTimeout _ _ _) as [t w1] eqn:E.
      apply wf_update_stream; [|by intros s' _].
      replace w1 with (t, w1).2 by done. rewrite <- E.
      apply wf_setTimeout; [|done].
      apply wf_update_stream.
      * apply wf_update_stream; [done|]. by intros s' _.
      * intros s' Hs'. cbn. split; [done|].
        apply lookup_alter_inv in Hs' as (s0 & Hs0 & [[_ ->]|[Hne _]]);
          [|done].
        assert (s0 = s) as -> by congruence. cbn. rewrite Hst. done.
    + apply wf_update_stream; [done|]. intros s' Hs'. cbn.
      assert (s' = s) as -> by congruence. rewrite Hst. done.
Qed.

(** In a well-formed world the handle held by a state object was
    spawned for it. *)
Lemma handle_owner w a s p pr :
  wf w -> heap w !! a = Some s -> process s = Some p ->
  procs w !! p = Some pr -> p_streamState pr = a.
Proof.
  intros Hw Hs Hp Hpr.
  destruct (wf_process_owner w Hw _ _ _ Hs Hp) as (pr' & Hpr' & Ho).
  congruence.
Qed.

Lemma wf_kill_inactive w a s p sig :
  wf w -> heap w !! a = Some s -> process s = Some p ->
  is_active (status s) = false -> wf (kill p sig w).
Proof.
  intros Hw Hs Hp Hst. apply wf_kill; [done|].
  intros pr s' Hpr Hs'.
  rewrite (handle_owner w a s p pr) in Hs' by done. congruence.
Qed.

Lemma wf_run_callback cb w :
  wf w ->
  (forall a, cb = ForceKill a -> status_at a w = Some stopped) ->
  wf (run_callback cb w).
Proof.
  intros Hw Hcb. destruct cb as [sid f c a|a]; cbn.
  - unfold status_at. destruct (heap w !! a) as [s|] eqn:Hs; [|done]. cbn.
    destruct (status s) eqn:Hst; try done.
    apply wf_spawnFfmpeg; [done|]. intros s' Hs'.
    assert (s' = s) as -> by congruence. by rewrite Hst.
  - specialize (Hcb a eq_refl). unfold status_at in Hcb.
    destruct (heap w !! a) as [s|] eqn:Hs; [|done].
    destruct (process s) as [p|] eqn:Hp; [|done].
    cbn in Hcb. injection Hcb as Hst.
    eapply wf_kill_inactive; eauto. by rewrite Hst.
Qed.

Lemma startStream_world id f c now w :
  (startStream id f c now w).2 =
  spawnFfmpeg id f c (length (heap w))
    (set_activeStreams (<[id := length (heap w)]> (activeStreams w))
       (set_heap (heap w ++ [mkStreamState None running now 0 None
                                           (Stats.mk "00:00:00" 1) c]) w)).
Proof. reflexivity. Qed.

Lemma wf_startStream id f c now w : wf w -> wf (startStream id f c now w).2.
Proof.
  intros [H1 H2 H3 H4 H5 H6 H7]. rewrite startStream_world.
  apply wf_spawnFfmpeg.
  - split; unfold status_at in *;
      cbn [activeStreams heap procs timers nextTimer set_activeStreams set_heap].
    + intros id' a. rewrite lookup_insert, length_app. cbn.
      destruct (decide (id = id')) as [->|Hne].
      * intros [= <-]. lia.
      * intros Ha. apply H1 in Ha. lia.
    + intros id1 id2 a. rewrite !lookup_insert.
      destruct (decide (id = id1)) as [<-|Hne1],
               (decide (id = id2)) as [<-|Hne2]; try done.
      * intros [= <-] Ha. apply H1 in Ha. lia.
      * intros Ha [= <-]. apply H1 in Ha. lia.
      * eauto.
    + intros a s p [Hs|[-> ->]]%lookup_snoc_inv Hp; [eauto|done].
    + intros a s p pr [Hs|[-> ->]]%lookup_snoc_inv Ha Hp; [eauto|done].
    + intros t a d Ht. specialize (H5 _ _ _ Ht).
      destruct (heap w !! a) as [s|] eqn:Hs; [|done].
      by rewrite (lookup_app_l_Some _ _ _ _ Hs).
    + exact H6.
    + intros p pr Hpr Hne. specialize (H7 _ _ Hpr Hne).
      destruct (heap w !! p_streamState pr) as [s|] eqn:Hs; [|done].
      by rewrite (lookup_app_l_Some _ _ _ _ Hs).
  - cbn. intros s. rewrite lookup_app_r by lia. rewrite Nat.sub_diag.
    by intros [= <-].
Qed.

Lemma kill_update_comm p sig a g w :
  update_stream a g (kill p sig w) = kill p sig (update_stream a g w).
Proof. unfold kill, update_stream; cbn. repeat case_match; reflexivity. Qed.

Lemma wf_stopAll_entry a w : wf w -> wf (stopAll_entry a w).
Proof.
  intros Hw. unfold stopAll_entry.
  destruct (heap w !! a) as [s|] eqn:Hs; [|done].
  destruct (is_active (status s)); [|done].
  set (w1 := match reconnectTimer s with
             | Some t => clearTimeout t w
             | None => w
             end).
  assert (Hw1 : wf w1).
  { subst w1. destruct (reconnectTimer s); [by apply wf_clearTimeout|done]. }
  assert (Hs1 : heap w1 !! a = Some s).
  { subst w1. by destruct (reconnectTimer s). }
  assert (Hp1 : procs w1 = procs w).
  { subst w1. by destruct (reconnectTimer s). }
  clearbody w1.
  assert (Hw2 : wf (update_stream a (set_status stopped) w1)).
  { apply wf_update_stream; [done|]. by intros s' _. }
  destruct (process s) as [p|] eqn:Hp; [|done].
  destruct (procs w1 !! p) as [pr|]; [|done].
  destruct (negb (p_killed pr)); [|done].
  rewrite kill_update_comm.
  eapply (wf_kill_inactive _ a (set_status stopped s)); try done.
  unfold update_stream; cbn. by rewrite list_lookup_alter_eq, Hs1.
Qed.

Lemma wf_stopAllStreams w : wf w -> wf (stopAllStreams w).
Proof.
  unfold stopAllStreams. generalize (map_to_list (activeStreams w)).
  intros l. revert w. induction l as [|[id a] l IH]; intros w Hw; cbn.
  - done.
  - apply IH. by apply wf_stopAll_entry.
Qed.

Lemma wf_cancel_reconnect a s w : wf w -> wf (cancel_reconnect a s w).
Proof.
  intros Hw. unfold cancel_reconnect. destruct (reconnectTimer s); [|done].
  apply wf_update_stream; [by apply wf_clearTimeout|]. by intros s' _.
Qed.

Lemma lookup_cancel_reconnect a s w s1 :
  heap w !! a = Some s1 ->
  heap (cancel_reconnect a s w) !! a =
  Some (match reconnectTimer s with
        | Some _ => set_reconnectTimer None s1
        | None => s1
        end).
Proof.
  intros Hs1. unfold cancel_reconnect. destruct (reconnectTimer s); [|done].
  unfold update_stream; cbn. by rewrite list_lookup_alter_eq, Hs1.
Qed.

Lemma procs_cancel_reconnect a s w : procs (cancel_reconnect a s w) = procs w.
Proof. unfold cancel_reconnect. by destruct (reconnectTimer s). Qed.

Lemma wf_terminate_process a s s2 w :
  wf w -> heap w !! a = Some s2 -> process s2 = process s ->
  status s2 = stopped -> wf (terminate_process a s w).
Proof.
  intros Hw Hs2 Hp2 Hst2. unfold terminate_process.
  destruct (process s) as [p|] eqn:Hp; [|done].
  destruct (procs w !! p) as [pr|] eqn:Hpr; [|done].
  destruct (negb (p_killed pr)); [|done].
  assert (Hw3 : wf (kill p SIGINT w)).
  { eapply wf_kill_inactive; eauto. by rewrite Hst2. }
  destruct (setTimeout _ _ _) as [kt w4] eqn:E.
  assert (Hst3 : status_at a (kill p SIGINT w) = Some stopped).
  { unfold status_at. simpl_world. by rewrite Hs2; cbn; rewrite Hst2. }
  assert (Hw4 : wf w4).
  { replace w4 with (kt, w4).2 by done. rewrite <- E.
    apply wf_setTimeout; [done|]. by intros a' [= <-]. }
  unfold setTimeout in E. injection E as <- <-.
  apply wf_on_close_clear; [done|].
  intros pr' Hpr'. cbn in Hpr'.
  apply procs_kill_inv in Hpr' as (pr0 & Hpr0 & Ho & _).
  rewrite Ho. rewrite (handle_owner w a s2 p pr0) by done.
  exact Hst3.
Qed.

Lemma wf_stopStream id w : wf w -> wf (stopStream id w).2.
Proof.
  intros Hw. unfold stopStream.
  destruct (activeStreams w !! id) as [a|]; [|done].
  destruct (heap w !! a) as [s|] eqn:Hs; [|done].
  destruct (negb (is_active (status s))); [done|]. cbn [snd].
  set (w1 := update_stream a (set_status stopped) w).
  assert (Hw1 : wf w1).
  { apply wf_update_stream; [done|]. by intros s' _. }
  assert (Hs1 : heap w1 !! a = Some (set_status stopped s)).
  { subst w1. unfold update_stream; cbn. by rewrite list_lookup_alter_eq, Hs. }
  clearbody w1.
  eapply wf_terminate_process.
  - by apply wf_cancel_reconnect.
  - by apply lookup_cancel_reconnect.
  - by destruct (reconnectTimer s).
  - by destruct (reconnectTimer s).
Qed.

Lemma wf_clear_all (l : list nat) w :
  wf w -> wf (foldl (fun w t => clearTimeout t w) w l).
Proof.
  revert w. induction l as [|t l IH]; intros w Hw; cbn; [done|].
  apply IH. by apply wf_clearTimeout.
Qed.

Lemma wf_step e w : wf w -> wf (step e w).
Proof.
  intros Hw. destruct e as [id f c now|id| |id|p output|p code|p|t];
    cbn [step].
  - by apply wf_startStream.
  - by apply wf_stopStream.
  - by apply wf_stopAllStreams.
  - done.
  - destruct (procs w !! p) as [pr|]; [|done].
    destruct (p_exited pr); [done|]. by apply wf_onStderrData.
  - destruct (procs w !! p) as [pr|]; [|done].
    destruct (p_exited pr); [done|].
    apply wf_clear_all, wf_onClose, wf_mark_exited, Hw.
  - done.
  - destruct (timers w !! t) as [[cb d]|] eqn:Ht; [|done].
    apply wf_run_callback; [by apply wf_clearTimeout|].
    intros a Hcb. cbn in Hcb. subst cb.
    apply (wf_forcekill_stopped w Hw t a d Ht).
Qed.

Lemma wf_init : wf init.
Proof. split; cbn; intros; simplify_map_eq; done. Qed.

Lemma run_snoc evs e w : run (evs ++ [e]) w = step e (run evs w).
Proof. unfold run. by rewrite foldl_app. Qed.

Lemma run_app evs1 evs2 w : run (evs1 ++ evs2) w = run evs2 (run evs1 w).
Proof. unfold run. by rewrite foldl_app. Qed.

Lemma wf_run evs w : wf w -> wf (run evs w).
Proof.
  revert w. induction evs as [|e evs IH]; intros w Hw; cbn; [done|].
  apply IH. by apply wf_step.
Qed.

Lemma reachable_wf w : reachable w -> wf w.
Proof. intros [evs ->]. apply wf_run, wf_init. Qed.

Lemma reachable_run evs w : reachable w -> reachable (run evs w).
Proof. intros [evs0 ->]. exists (evs0 ++ evs)%list. by rewrite run_app. Qed.

(** ** A stream that is no longer active stays as it is *)

Lemma owners_insert_same (p : nat) (pr y : Proc) (l : list Proc) :
  l !! p = Some pr -> p_streamState y = p_streamState pr ->
  map p_streamState (<[p := y]> l) = map p_streamState l.
Proof.
  intros Hp Ho. change (map p_streamState) with (fmap (M:=list) p_streamState).
  rewrite list_fmap_insert, Ho. apply list_insert_id.
  by rewrite list_lookup_fmap, Hp.
Qed.

Lemma owners_kill p sig w : owners (kill p sig w) = owners w.
Proof.
  unfold owners, kill. destruct (procs w !! p) as [pr|] eqn:E; [|done].
  destruct (p_exited pr); [done|]. cbn. by apply (owners_insert_same p pr).
Qed.

Lemma owners_on_close_clear p t w : owners (on_close_clear p t w) = owners w.
Proof.
  unfold owners, on_close_clear. destruct (procs w !! p) as [pr|] eqn:E; [|done].
  cbn. by apply (owners_insert_same p pr).
Qed.

Lemma owners_mark_exited p w : owners (mark_exited p w) = owners w.
Proof.
  unfold owners, mark_exited. destruct (procs w !! p) as [pr|] eqn:E; [|done].
  cbn. by apply (owners_insert_same p pr).
Qed.

Lemma spawn_count_spawnFfmpeg sid f c a' w a :
  spawn_count a (spawnFfmpeg sid f c a' w) =
  (spawn_count a w + if decide (a' = a) then 1 else 0)%nat.
Proof.
  unfold spawn_count, owners. rewrite procs_spawnFfmpeg.
  rewrite map_app, filter_app, length_app. cbn [map p_streamState].
  rewrite filter_cons, filter_nil.
  by destruct (decide (a' = a)).
Qed.

Section Inactive.
Variables (a : nat) (st : Status) (n : nat).
Hypothesis Hinactive : is_active st = false.

Lemma settled_update a' f w :
  (a' <> a \/ forall s, status (f s) = status s) ->
  settled a st n w -> settled a st n (update_stream a' f w).
Proof.
  intros Hf [Hs Hn]. split; [|done].
  rewrite status_at_update. destruct (decide (a' = a)) as [->|]; [|done].
  destruct Hf as [|Hf]; [done|].
  unfold status_at in Hs. destruct (heap w !! a) as [s|]; [|done].
  cbn in *. by rewrite Hf.
Qed.

Lemma settled_clearTimeout t w :
  settled a st n w -> settled a st n (clearTimeout t w).
Proof. done. Qed.

Lemma settled_setTimeout cb d w :
  settled a st n w -> settled a st n (setTimeout cb d w).2.
Proof. done. Qed.

Lemma settled_kill p sig w :
  settled a st n w -> settled a st n (kill p sig w).
Proof.
  intros [Hs Hn]. unfold settled, status_at, spawn_count.
  by rewrite owners_kill, heap_kill.
Qed.

Lemma settled_on_close_clear p t w :
  settled a st n w -> settled a st n (on_close_clear p t w).
Proof.
  intros [Hs Hn]. unfold settled, status_at, spawn_count.
  by rewrite owners_on_close_clear, heap_on_close_clear.
Qed.

Lemma settled_mark_exited p w :
  settled a st n w -> settled a st n (mark_exited p w).
Proof.
  intros [Hs Hn]. unfold settled, status_at, spawn_count.
  by rewrite owners_mark_exited, heap_mark_exited.
Qed.

Lemma settled_spawnFfmpeg sid f c a' w :
  a' <> a -> settled a st n w -> settled a st n (spawnFfmpeg sid f c a' w).
Proof.
  intros Hne [Hs Hn]. split.
  - by rewrite status_at_spawnFfmpeg_ne.
  - rewrite spawn_count_spawnFfmpeg. destruct (decide (a' = a)); [done|lia].
Qed.

(** An active state object is not the settled one. *)
Lemma settled_other a' s w :
  settled a st n w -> heap w !! a' = Some s ->
  is_active (status s) = true -> a' <> a.
Proof.
  intros [Hs _] Ha' Hact ->. unfold status_at in Hs. rewrite Ha' in Hs.
  cbn in Hs. injection Hs as Hs. rewrite Hs in Hact. congruence.
Qed.

Lemma settled_onStderrData c a' output w :
  settled a st n w -> settled a st n (onStderrData c a' output w).
Proof.
  intros H. unfold onStderrData. destruct (match_time output); [|done].
  apply settled_update; [|done]. right. intros s0.
  unfold record_progress. by repeat case_match.
Qed.

Lemma settled_onClose sid f c a' code w :
  settled a st n w -> settled a st n (onClose sid f c a' code w).
Proof.
  intros H. unfold onClose.
  destruct (heap w !! a') as [s|] eqn:Hs; [|done].
  destruct (status s) eqn:Hst; try done.
  assert (Hne : a' <> a).
  { eapply settled_other; eauto. by rewrite Hst. }
  destruct (bool_decide (code = Some 0)).
  - apply settled_update; eauto.
  - destruct (reconnectAttempts s <? MAX_RECONNECT_ATTEMPTS).
    + destruct (setTimeout _ _ _) as [t w1] eqn:E.
      apply settled_update; [eauto|].
      replace w1 with (t, w1).2 by done. rewrite <- E.
      apply settled_setTimeout. by repeat apply settled_update; eauto.
    + apply settled_update; eauto.
Qed.

Lemma settled_run_callback cb w :
  settled a st n w -> settled a st n (run_callback cb w).
Proof.
  intros H. destruct cb as [sid f c a'|a']; cbn.
  - unfold status_at. destruct (heap w !! a') as [s|] eqn:Hs; [|done]. cbn.
    destruct (status s) eqn:Hst; try done.
    apply settled_spawnFfmpeg; [|done].
    eapply settled_other; eauto. by rewrite Hst.
  - destruct (heap w !! a') as [s|]; [|done].
    destruct (process s); [|done]. by apply settled_kill.
Qed.

Lemma settled_startStream id f c now w :
  settled a st n w -> settled a st n (startStream id f c now w).2.
Proof.
  intros [Hs Hn]. rewrite startStream_world.
  assert (Hlt : (a < length (heap w))%nat).
  { unfold status_at in Hs. destruct (heap w !! a) eqn:E; [|done].
    by apply lookup_lt_Some in E. }
  apply settled_spawnFfmpeg; [lia|]. split; [|done].
  unfold status_at in *; cbn. by rewrite lookup_app_l.
Qed.

Lemma settled_stopStream id w :
  settled a st n w -> settled a st n (stopStream id w).2.
Proof.
  intros H. unfold stopStream.
  destruct (activeStreams w !! id) as [a'|]; [|done].
  destruct (heap w !! a') as [s|] eqn:Hs; [|done].
  destruct (is_active (status s)) eqn:Hact; [|done]. cbn [negb snd].
  assert (Hne : a' <> a) by (eapply settled_other; eauto).
  set (w1 := update_stream a' (set_status stopped) w).
  assert (H1 : settled a st n w1) by (apply settled_update; eauto).
  clearbody w1.
  assert (H2 : settled a st n (cancel_reconnect a' s w1)).
  { unfold cancel_reconnect. destruct (reconnectTimer s); [|done].
    apply settled_update; eauto. }
  revert H2. generalize (cancel_reconnect a' s w1). intros w2 H2.
  unfold terminate_process.
  destruct (process s) as [p|]; [|done].
  destruct (procs w2 !! p) as [pr|]; [|done].
  destruct (negb (p_killed pr)); [|done].
  destruct (setTimeout _ _ _) as [kt w4] eqn:E.
  apply settled_on_close_clear.
  replace w4 with (kt, w4).2 by done. rewrite <- E.
  by apply settled_setTimeout, settled_kill.
Qed.

Lemma settled_stopAll_entry a' w :
  settled a st n w -> settled a st n (stopAll_entry a' w).
Proof.
  intros H. unfold stopAll_entry.
  destruct (heap w !! a') as [s|] eqn:Hs; [|done].
  destruct (is_active (status s)) eqn:Hact; [|done].
  assert (Hne : a' <> a) by (eapply settled_other; eauto).
  apply settled_update; [eauto|].
  set (w1 := match reconnectTimer s with
             | Some t => clearTimeout t w
             | None => w
             end).
  assert (H1 : settled a st n w1).
  { subst w1. by destruct (reconnectTimer s). }
  clearbody w1.
  destruct (process s) as [p|]; [|done].
  destruct (procs w1 !! p) as [pr|]; [|done].
  destruct (negb (p_killed pr)); [|done].
  by apply settled_kill.
Qed.

Lemma settled_stopAllStreams w :
  settled a st n w -> settled a st n (stopAllStreams w).
Proof.
  unfold stopAllStreams. generalize (map_to_list (activeStreams w)).
  intros l. revert w. induction l as [|[id a'] l IH]; intros w H; cbn.
  - done.
  - apply IH. by apply settled_stopAll_entry.
Qed.

Lemma settled_clear_all (l : list nat) w :
  settled a st n w -> settled a st n (foldl (fun w t => clearTimeout t w) w l).
Proof.
  revert w. induction l as [|t l IH]; intros w H; cbn; [done|].
  by apply IH.
Qed.

Lemma settled_step e w : settled a st n w -> settled a st n (step e w).
Proof.
  intros H. destruct e as [id f c now|id| |id|p output|p code|p|t];
    cbn [step].
  - by apply settled_startStream.
  - by apply settled_stopStream.
  - by apply settled_stopAllStreams.
  - done.
  - destruct (procs w !! p) as [pr|]; [|done].
    destruct (p_exited pr); [done|]. by apply settled_onStderrData.
  - destruct (procs w !! p) as [pr|]; [|done].
    destruct (p_exited pr); [done|].
    by apply settled_clear_all, settled_onClose, settled_mark_exited.
  - done.
  - destruct (timers w !! t) as [tm|]; [|done].
    by apply settled_run_callback.
Qed.

Lemma settled_run evs w : settled a st n w -> settled a st n (run evs w).
Proof.
  revert w. induction evs as [|e evs IH]; intros w H; cbn; [done|].
  by apply IH, settled_step.
Qed.

End Inactive.

(** ** The registry changes only in [startStream] *)

Lemma activeStreams_update a f w :
  activeStreams (update_stream a f w) = activeStreams w.
Proof. reflexivity. Qed.

Lemma activeStreams_terminate_process a s w :
  activeStreams (terminate_process a s w) = activeStreams w.
Proof.
  unfold terminate_process.
  destruct (process s) as [p|]; [|done].
  destruct (procs w !! p) as [pr|]; [|done].
  destruct (negb (p_killed pr)); [|done].
  cbn. by simpl_world.
Qed.

Lemma activeStreams_stopStream id w :
  activeStreams (stopStream id w).2 = activeStreams w.
Proof.
  unfold stopStream. repeat case_match; try done. cbn [snd].
  rewrite activeStreams_terminate_process.
  unfold cancel_reconnect. by case_match.
Qed.

Lemma activeStreams_stopAll_entry a w :
  activeStreams (stopAll_entry a w) = activeStreams w.
Proof.
  unfold stopAll_entry. repeat case_match; cbn; simpl_world; done.
Qed.

Lemma activeStreams_stopAllStreams w :
  activeStreams (stopAllStreams w) = activeStreams w.
Proof.
  unfold stopAllStreams. generalize (map_to_list (activeStreams w)).
  intros l. revert w. induction l as [|[id a] l IH]; intros w; cbn; [done|].
  by rewrite IH, activeStreams_stopAll_entry.
Qed.

Lemma activeStreams_onClose sid f c a code w :
  activeStreams (onClose sid f c a code w) = activeStreams w.
Proof.
  unfold onClose. destruct (heap w !! a) as [s|]; [|done].
  destruct (status s), (bool_decide (code = Some 0)); try done.
  by destruct (reconnectAttempts s <? MAX_RECONNECT_ATTEMPTS).
Qed.

Lemma activeStreams_clear_all (l : list nat) w :
  activeStreams (foldl (fun w t => clearTimeout t w) w l) = activeStreams w.
Proof.
  revert w. induction l as [|t l IH]; intros w; cbn; [done|]. by rewrite IH.
Qed.

Lemma activeStreams_step e w :
  activeStreams (step e w) =
  match e with
  | Start id _ _ _ => <[id := length (heap w)]> (activeStreams w)
  | _ => activeStreams w
  end.
Proof.
  destruct e as [id f c now|id| |id|p output|p code|p|t]; cbn [step].
  - reflexivity.
  - apply activeStreams_stopStream.
  - apply activeStreams_stopAllStreams.
  - reflexivity.
  - unfold onStderrData. by repeat case_match.
  - repeat case_match; try done.
    by rewrite activeStreams_clear_all, activeStreams_onClose,
      activeStreams_mark_exited.
  - reflexivity.
  - repeat case_match; try done. subst.
    unfold run_callback. by repeat case_match; simpl_world.
Qed.

Lemma activeStreams_run_no_start evs w :
  forallb (fun e => negb (is_start e)) evs = true ->
  activeStreams (run evs w) = activeStreams w.
Proof.
  revert w. induction evs as [|e evs IH]; intros w; cbn [forallb]; [done|].
  intros [He Hevs]%andb_true_iff.
  change (run (e :: evs) w) with (run evs (step e w)).
  rewrite IH by done. rewrite activeStreams_step. by destruct e.
Qed.

(** C4: once the state object of a stream has status [stopped],
    [completed] or [error], no sequence of events changes that status;
    and as long as the id is not started anew, [getStreamStatus] keeps
    reporting it. *)
Theorem terminal_status_is_final (w : World) (a : nat) (s : StreamState) :
  heap w !! a = Some s ->
  is_terminal (status s) = true ->
  (forall evs, status_at a (run evs w) = Some (status s)) /\
  (forall evs id,
      forallb (fun e => negb (is_start e)) evs = true ->
      activeStreams w !! id = Some a ->
      Report.status (getStreamStatus id (run evs w)) = status_name (status s)).
Proof.
  intros Hs Hterm.
  assert (Hinact : is_active (status s) = false) by by destruct (status s).
  assert (Hrun : forall evs, status_at a (run evs w) = Some (status s)).
  { intros evs.
    apply (settled_run a (status s) (spawn_count a w) Hinact evs w).
    split; [|done]. unfold status_at. by rewrite Hs. }
  split; [done|].
  intros evs id Hns Hid. specialize (Hrun evs).
  unfold getStreamStatus. rewrite activeStreams_run_no_start, Hid by done.
  cbn. unfold status_at in Hrun.
  destruct (heap (run evs w) !! a) as [s'|]; [|done].
  cbn in *. injection Hrun as ->.
  by destruct (status s).
Qed.

Lemma terminal_status_is_final_witness :
  (forall evs, status_at 0 (run evs stopped_world) = Some stopped) /\
  (forall evs id,
      forallb (fun e => negb (is_start e)) evs = true ->
      activeStreams stopped_world !! id = Some 0%nat ->
      Report.status (getStreamStatus id (run evs stopped_world)) = "stopped").
Proof.
  exact (terminal_status_is_final stopped_world 0
           (mkStreamState (Some 0%nat) stopped 0 0 None
                          (Stats.mk "00:00:00" 1) clip_config)
           eq_refl eq_refl).
Defined.

(** ** [stopStream] *)

Lemma stopStream_active id w a s :
  activeStreams w !! id = Some a -> heap w !! a = Some s ->
  is_active (status s) = true ->
  stopStream id w =
  (true, terminate_process a s
           (cancel_reconnect a s (update_stream a (set_status stopped) w))).
Proof.
  intros Hid Hs Hact. unfold stopStream. by rewrite Hid, Hs, Hact.
Qed.

Lemma heap_terminate_process a s w : heap (terminate_process a s w) = heap w.
Proof.
  unfold terminate_process.
  destruct (process s) as [p|]; [|done].
  destruct (procs w !! p) as [pr|]; [|done].
  destruct (negb (p_killed pr)); [|done].
  cbn. by simpl_world.
Qed.

Lemma owners_terminate_process a s w :
  owners (terminate_process a s w) = owners w.
Proof.
  unfold terminate_process.
  destruct (process s) as [p|]; [|done].
  destruct (procs w !! p) as [pr|]; [|done].
  destruct (negb (p_killed pr)); [|done].
  cbn. rewrite owners_on_close_clear.
  change (owners (kill p SIGINT w) = owners w). apply owners_kill.
Qed.

Lemma timers_terminate_process_inv a s w t tm :
  timers (terminate_process a s w) !! t = Some tm ->
  timers w !! t = Some tm \/
  (t = nextTimer w /\ tm = mkTimer (ForceKill a) 5000).
Proof.
  unfold terminate_process.
  destruct (process s) as [p|]; [|by left].
  destruct (procs w !! p) as [pr|]; [|by left].
  destruct (negb (p_killed pr)); [|by left].
  cbn. simpl_world. cbn. simpl_world.
  rewrite lookup_insert. destruct (decide (nextTimer w = t)) as [<-|].
  - intros [= <-]. by right.
  - by left.
Qed.

(** The effect of lines 219-235 on a process that is alive and has not
    been signalled: SIGINT is delivered, the forced kill is armed and a
    ['close'] listener disarms it. *)
Lemma terminate_process_live a s w p pr :
  process s = Some p -> procs w !! p = Some pr ->
  p_killed pr = false -> p_exited pr = false ->
  procs (terminate_process a s w) !! p =
    Some (mkProc (p_streamId pr) (p_filePath pr) (p_config pr)
                 (p_streamState pr) (p_args pr) true false
                 (p_signals pr ++ [SIGINT]) (p_onClose pr ++ [nextTimer w])) /\
  timers (terminate_process a s w) =
    <[nextTimer w := mkTimer (ForceKill a) 5000]> (timers w).
Proof.
  intros Hp Hpr Hk Hx. unfold terminate_process.
  rewrite Hp, Hpr, Hk. cbn [negb].
  assert (Hlt : (p < length (procs w))%nat) by by eapply lookup_lt_Some.
  unfold kill. rewrite Hpr, Hx. cbn.
  unfold on_close_clear. cbn. rewrite list_lookup_insert_eq by done. cbn.
  rewrite list_lookup_insert_eq by by rewrite length_insert.
  done.
Qed.

(** A relaunch callback that runs while its stream is not
    [reconnecting] does nothing. *)
Lemma stale_relaunch_is_noop sid f c a st w :
  status_at a w = Some st -> st <> reconnecting ->
  run_callback (Relaunch sid f c a) w = w.
Proof. intros Hs Hne. cbn. rewrite Hs. by destruct st. Qed.

(** C2: stopping a stream that is [reconnecting] with its relaunch
    timer pending returns true, removes the timer from the pending
    ones and records [stopped]; from then on no event sequence spawns
    a process for that stream, and a relaunch callback for it that ran
    all the same would find the status changed and spawn nothing. *)
Theorem stop_cancels_pending_relaunch
  (w : World) (id sid f : string) (c : Config) (a t : nat) (s : StreamState) :
  reachable w ->
  activeStreams w !! id = Some a ->
  heap w !! a = Some s ->
  status s = reconnecting ->
  reconnectTimer s = Some t ->
  timers w !! t = Some (mkTimer (Relaunch sid f c a) RECONNECT_DELAY_MS) ->
  (stopStream id w).1 = true /\
  timers (stopStream id w).2 !! t = None /\
  status_at a (stopStream id w).2 = Some stopped /\
  (forall evs,
      spawn_count a (run evs (stopStream id w).2) = spawn_count a w /\
      status_at a (run evs (stopStream id w).2) = Some stopped) /\
  (forall evs,
      run_callback (Relaunch sid f c a) (run evs (stopStream id w).2)
      = run evs (stopStream id w).2).
Proof.
  intros Hreach Hid Hs Hst Ht Hpending.
  apply reachable_wf in Hreach.
  rewrite (stopStream_active id w a s) by (try done; by rewrite Hst).
  cbn [fst snd].
  set (w1 := update_stream a (set_status stopped) w).
  assert (Hs1 : heap w1 !! a = Some (set_status stopped s)).
  { subst w1. unfold update_stream; cbn. by rewrite list_lookup_alter_eq, Hs. }
  assert (Hsettled : settled a stopped (spawn_count a w)
                       (terminate_process a s (cancel_reconnect a s w1))).
  { split.
    - unfold status_at. rewrite heap_terminate_process.
      rewrite (lookup_cancel_reconnect a s w1 _ Hs1). by rewrite Ht.
    - unfold spawn_count. rewrite owners_terminate_process.
      unfold owners. by rewrite procs_cancel_reconnect. }
  split; [done|]. split; [|split; [apply Hsettled|split]].
  - destruct (timers (terminate_process a s (cancel_reconnect a s w1)) !! t)
      as [tm|] eqn:E; [|done].
    exfalso.
    apply timers_terminate_process_inv in E as [E|[E _]].
    + unfold cancel_reconnect in E. rewrite Ht in E. cbn in E.
      by rewrite lookup_delete_eq in E.
    + unfold cancel_reconnect in E. rewrite Ht in E. cbn in E.
      apply (wf_timer_bound w Hreach) in Hpending. lia.
  - intros evs.
    destruct (settled_run a stopped _ eq_refl evs _ Hsettled) as [H1 H2].
    done.
  - intros evs.
    destruct (settled_run a stopped _ eq_refl evs _ Hsettled) as [H1 H2].
    by eapply stale_relaunch_is_noop.
Qed.

Lemma stop_cancels_pending_relaunch_witness :
  (stopStream "s1" reconnecting_world).1 = true /\
  timers (stopStream "s1" reconnecting_world).2 !! 0%nat = None /\
  status_at 0 (stopStream "s1" reconnecting_world).2 = Some stopped /\
  (forall evs,
      spawn_count 0 (run evs (stopStream "s1" reconnecting_world).2)
      = spawn_count 0 reconnecting_world /\
      status_at 0 (run evs (stopStream "s1" reconnecting_world).2)
      = Some stopped) /\
  (forall evs,
      run_callback (Relaunch "s1" "clip.mp4" clip_config 0)
                   (run evs (stopStream "s1" reconnecting_world).2)
      = run evs (stopStream "s1" reconnecting_world).2).
Proof.
  apply (stop_cancels_pending_relaunch reconnecting_world "s1" "s1" "clip.mp4"
           clip_config 0 0 reconnecting_state); try reflexivity.
  exists [Start "s1" "clip.mp4" clip_config 0; Close 0%nat (Some 1)].
  reflexivity.
Defined.

(** C5: [stopStream] returns false and leaves the world as it is when
    the id is unknown or its stream is neither [running] nor
    [reconnecting]. Otherwise it returns true, the status becomes
    [stopped], the state holds no reconnect timer and the one it held is
    no longer pending, and a process that has not exited receives
    SIGINT, with the forced kill armed 5000 ms later. *)
Theorem stopStream_contract (w : World) (id : string) :
  reachable w ->
  (activeStreams w !! id = None -> stopStream id w = (false, w)) /\
  (forall a s,
      activeStreams w !! id = Some a -> heap w !! a = Some s ->
      is_active (status s) = false -> stopStream id w = (false, w)) /\
  (forall a s,
      activeStreams w !! id = Some a -> heap w !! a = Some s ->
      is_active (status s) = true ->
      (stopStream id w).1 = true /\
      status_at a (stopStream id w).2 = Some stopped /\
      reconnectTimer <$> heap (stopStream id w).2 !! a = Some None /\
      (forall t, reconnectTimer s = Some t -> is_Some (timers w !! t) ->
                 timers (stopStream id w).2 !! t = None) /\
      (forall p pr,
          process s = Some p -> procs w !! p = Some pr ->
          p_exited pr = false ->
          (exists pr', procs (stopStream id w).2 !! p = Some pr' /\
                       p_signals pr' = (p_signals pr ++ [SIGINT])%list) /\
          timers (stopStream id w).2 !! nextTimer w
            = Some (mkTimer (ForceKill a) 5000))).
Proof.
  intros Hreach. apply reachable_wf in Hreach.
  split; [|split].
  - intros Hid. unfold stopStream. by rewrite Hid.
  - intros a s Hid Hs Hact. unfold stopStream. by rewrite Hid, Hs, Hact.
  - intros a s Hid Hs Hact.
    rewrite (stopStream_active id w a s) by done. cbn [fst snd].
    set (w1 := update_stream a (set_status stopped) w).
    assert (Hs1 : heap w1 !! a = Some (set_status stopped s)).
    { subst w1. unfold update_stream; cbn.
      by rewrite list_lookup_alter_eq, Hs. }
    pose proof (lookup_cancel_reconnect a s w1 _ Hs1) as Hs2.
    split; [done|]. split; [|split; [|split]].
    + unfold status_at. rewrite heap_terminate_process, Hs2.
      by destruct (reconnectTimer s).
    + rewrite heap_terminate_process, Hs2.
      destruct (reconnectTimer s) eqn:E; cbn; [done|by rewrite E].
    + intros t Ht [tm0 Hpending].
      destruct (timers (terminate_process a s (cancel_reconnect a s w1)) !! t)
        as [tm|] eqn:E; [|done].
      exfalso. apply timers_terminate_process_inv in E as [E|[E _]].
      * unfold cancel_reconnect in E. rewrite Ht in E. cbn in E.
        by rewrite lookup_delete_eq in E.
      * unfold cancel_reconnect in E. rewrite Ht in E. cbn in E.
        apply (wf_timer_bound w Hreach) in Hpending. lia.
    + intros p pr Hp Hpr Hx.
      assert (Hk : p_killed pr = false).
      { eapply (wf_active_not_killed w Hreach); eauto. }
      assert (Hpr2 : procs (cancel_reconnect a s w1) !! p = Some pr).
      { by rewrite procs_cancel_reconnect. }
      destruct (terminate_process_live a s _ p pr Hp Hpr2 Hk Hx) as [H1 H2].
      split.
      * eexists. split; [exact H1|done].
      * rewrite H2. unfold cancel_reconnect.
        destruct (reconnectTimer s); cbn; by rewrite lookup_insert_eq.
Qed.

Lemma stopStream_contract_witness :
  (stopStream "s1" running_world).1 = true /\
  status_at 0 (stopStream "s1" running_world).2 = Some stopped /\
  (exists pr', procs (stopStream "s1" running_world).2 !! 0%nat = Some pr' /\
               p_signals pr' = [SIGINT]) /\
  stopStream "s2" running_world = (false, running_world).
Proof.
  assert (Hreach : reachable running_world).
  { exists [Start "s1" "clip.mp4" clip_config 0]. reflexivity. }
  destruct (stopStream_contract running_world "s1" Hreach) as (_ & _ & H).
  destruct (H 0%nat running_state eq_refl eq_refl eq_refl)
    as (H1 & H2 & _ & _ & H5).
  destruct (H5 0%nat
              (mkProc "s1" "clip.mp4" clip_config 0
                      (buildFfmpegArgs "clip.mp4" clip_config)
                      false false [] [])
              eq_refl eq_refl eq_refl) as [H6 _].
  split; [exact H1|]. split; [exact H2|]. split; [exact H6|].
  apply (proj1 (stopStream_contract running_world "s2" Hreach)).
  reflexivity.
Defined.

(** ** The ['close'] event *)

(** C3: when the process of a [running] stream exits with a code other
    than 0 and [reconnectAttempts] is at the maximum, 10, the status
    becomes [error] and no timer is scheduled; below the maximum the
    counter goes up by one, the status becomes [reconnecting] and a
    relaunch is scheduled [RECONNECT_DELAY_MS] later. *)
Theorem close_nonzero_reconnect_policy
  (w : World) (p : nat) (pr : Proc) (s : StreamState) (code : option Z) :
  reachable w ->
  procs w !! p = Some pr -> p_exited pr = false ->
  heap w !! p_streamState pr = Some s ->
  status s = running -> code <> Some 0 ->
  MAX_RECONNECT_ATTEMPTS = 10 /\
  (reconnectAttempts s = MAX_RECONNECT_ATTEMPTS ->
     heap (step (Close p code) w) !! p_streamState pr
       = Some (set_status error s) /\
     timers (step (Close p code) w) = timers w /\
     nextTimer (step (Close p code) w) = nextTimer w) /\
  (reconnectAttempts s < MAX_RECONNECT_ATTEMPTS ->
     heap (step (Close p code) w) !! p_streamState pr
       = Some (set_reconnectTimer (Some (nextTimer w))
                 (set_status reconnecting
                    (set_reconnectAttempts (reconnectAttempts s + 1) s))) /\
     timers (step (Close p code) w)
       = <[nextTimer w :=
             mkTimer (Relaunch (p_streamId pr) (p_filePath pr) (p_config pr)
                               (p_streamState pr))
                     RECONNECT_DELAY_MS]> (timers w)).
Proof.
  intros Hreach Hpr Hx Hs Hst Hcode. apply reachable_wf in Hreach.
  assert (Hl : p_onClose pr = []).
  { destruct (p_onClose pr) eqn:E; [done|]. exfalso.
    assert (Hne : p_onClose pr <> []) by by rewrite E.
    pose proof (wf_listener_stopped w Hreach p pr Hpr Hne) as H.
    unfold status_at in H. rewrite Hs in H. cbn in H. congruence. }
  split; [reflexivity|].
  cbn [step]. rewrite Hpr, Hx, Hl. cbn [foldl].
  unfold onClose. simpl_world. rewrite Hs, Hst.
  rewrite bool_decide_eq_false_2 by done.
  split.
  - intros Hmax.
    destruct (Z.ltb_spec (reconnectAttempts s) MAX_RECONNECT_ATTEMPTS); [lia|].
    unfold update_stream; cbn. simpl_world.
    by rewrite list_lookup_alter_eq, Hs.
  - intros Hlt.
    destruct (Z.ltb_spec (reconnectAttempts s) MAX_RECONNECT_ATTEMPTS); [|lia].
    unfold update_stream; cbn. simpl_world.
    by rewrite !list_lookup_alter_eq, Hs.
Qed.

Lemma close_nonzero_reconnect_policy_witness :
  (heap (step (Close 0%nat (Some 1)) running_world) !! 0%nat
     = Some reconnecting_state /\
   timers (step (Close 0%nat (Some 1)) running_world)
     = <[0%nat := mkTimer (Relaunch "s1" "clip.mp4" clip_config 0)
                          RECONNECT_DELAY_MS]> ∅) /\
  (heap (step (Close 10%nat (Some 1)) exhausted_world) !! 0%nat
     = Some (set_status error exhausted_state) /\
   timers (step (Close 10%nat (Some 1)) exhausted_world)
     = timers exhausted_world /\
   nextTimer (step (Close 10%nat (Some 1)) exhausted_world)
     = nextTimer exhausted_world).
Proof.
  split.
  - assert (Hreach : reachable running_world).
    { exists [Start "s1" "clip.mp4" clip_config 0]. reflexivity. }
    destruct (close_nonzero_reconnect_policy running_world 0
                (mkProc "s1" "clip.mp4" clip_config 0
                        (buildFfmpegArgs "clip.mp4" clip_config)
                        false false [] [])
                running_state (Some 1) Hreach eq_refl eq_refl eq_refl eq_refl)
      as (_ & _ & H).
    + discriminate.
    + apply H. reflexivity.
  - assert (Hreach : reachable exhausted_world).
    { exists (Start "s1" "clip.mp4" clip_config 0 :: retries 10).
      reflexivity. }
    destruct (close_nonzero_reconnect_policy exhausted_world 10
                (mkProc "s1" "clip.mp4" clip_config 0
                        (buildFfmpegArgs "clip.mp4" clip_config)
                        false false [] [])
                exhausted_state (Some 1) Hreach)
      as (_ & H & _); try (vm_compute; reflexivity).
    + discriminate.
    + apply H. reflexivity.
Defined.

(** ** [getStreamStatus] *)

Lemma registered_step e w id :
  is_Some (activeStreams w !! id) -> is_Some (activeStreams (step e w) !! id).
Proof.
  intros H. rewrite activeStreams_step. destruct e; try done.
  rewrite lookup_insert. by case_decide.
Qed.

Lemma registered_run evs w id :
  is_Some (activeStreams w !! id) -> is_Some (activeStreams (run evs w) !! id).
Proof.
  revert w. induction evs as [|e evs IH]; intros w H; [done|].
  change (run (e :: evs) w) with (run evs (step e w)).
  by apply IH, registered_step.
Qed.

(** An id is registered exactly when [startStream] was called with it. *)
Lemma registry_tracks_starts evs w id :
  if started id evs
  then is_Some (activeStreams (run evs w) !! id)
  else activeStreams (run evs w) !! id = activeStreams w !! id.
Proof.
  revert w. induction evs as [|e evs IH]; intros w; [done|].
  change (run (e :: evs) w) with (run evs (step e w)).
  change (started id (e :: evs)) with
    (match e with
     | Start id' _ _ _ => String.eqb id id'
     | _ => false
     end || started id evs).
  specialize (IH (step e w)). rewrite activeStreams_step in IH.
  destruct e as [id' f c now|id'| |id'|p output|p code|p|t];
    cbn [orb]; try exact IH.
  destruct (String.eqb_spec id id') as [<-|Hne]; cbn [orb].
  - apply registered_run. rewrite activeStreams_step, lookup_insert_eq. eauto.
  - destruct (started id evs); [done|].
    by rewrite lookup_insert_ne in IH.
Qed.

(** C6, as stated, fails: the report for an unknown id has neither
    [reconnecting] nor [reconnectAttempt]. *)
Lemma not_found_report_lacks_fields :
  getStreamStatus "s1" init = not_found_report /\
  Report.reconnecting (getStreamStatus "s1" init) = undefined /\
  Report.reconnectAttempt (getStreamStatus "s1" init) = undefined /\
  has_declared_shape (getStreamStatus "s1" init) = false.
Proof. repeat split. Qed.

(** C6 (amended): for an id with which [startStream] was never called
    the report is just status ["not_found"] and empty stats. For every
    other id it has all four fields: the status of the stream, with
    [reconnecting] shown as ["running"], the flag telling whether it is
    [reconnecting], the attempt counter and a copy of the stats. *)
Theorem getStreamStatus_report (evs : list Event) (id : string) :
  (started id evs = false ->
     getStreamStatus id (run evs init) = not_found_report) /\
  (started id evs = true ->
     exists a s,
       activeStreams (run evs init) !! id = Some a /\
       heap (run evs init) !! a = Some s /\
       has_declared_shape (getStreamStatus id (run evs init)) = true /\
       getStreamStatus id (run evs init) =
         Report.mk
           (if bool_decide (status s = reconnecting) then "running"
            else status_name (status s))
           (val (bool_decide (status s = reconnecting)))
           (val (reconnectAttempts s))
           (Report.mk_stats (val (Stats.time (stats s)))
                            (val (Stats.loopCount (stats s)))) /\
       (status s = reconnecting ->
          Report.status (getStreamStatus id (run evs init)) = "running" /\
          Report.reconnecting (getStreamStatus id (run evs init)) = val true)).
Proof.
  pose proof (registry_tracks_starts evs init id) as Hreg.
  split; intros Hst; rewrite Hst in Hreg.
  - unfold getStreamStatus. rewrite Hreg. done.
  - destruct Hreg as [a Ha].
    assert (Hw : wf (run evs init)) by apply wf_run, wf_init.
    pose proof (wf_registry_bound _ Hw _ _ Ha) as Hlt.
    apply lookup_lt_is_Some in Hlt as [s Hs].
    exists a, s. unfold getStreamStatus. rewrite Ha. cbn. rewrite Hs.
    do 4 (split; [done|]). intros Hr. rewrite Hr. by split.
Qed.

Lemma getStreamStatus_report_witness :
  getStreamStatus "s2" reconnecting_world = not_found_report /\
  Report.status (getStreamStatus "s1" reconnecting_world) = "running" /\
  Report.reconnecting (getStreamStatus "s1" reconnecting_world) = val true.
Proof.
  split.
  - apply (proj1 (getStreamStatus_report
                    [Start "s1" "clip.mp4" clip_config 0; Close 0%nat (Some 1)]
                    "s2")).
    reflexivity.
  - destruct (proj2 (getStreamStatus_report
                       [Start "s1" "clip.mp4" clip_config 0;
                        Close 0%nat (Some 1)] "s1") eq_refl)
      as (a & s & Ha & Hs & _ & _ & H).
    apply H. injection Ha as <-. by injection Hs as <-.
Defined.

(** ** Starting a stream on an id that is in use *)

Lemma procs_kill_other p' sig w p pr :
  procs w !! p = Some pr ->
  (forall pr', procs w !! p' = Some pr' ->
               p_streamState pr' <> p_streamState pr) ->
  procs (kill p' sig w) !! p = Some pr.
Proof.
  intros Hpr Hne. unfold kill.
  destruct (procs w !! p') as [pr'|] eqn:E; [|done].
  destruct (p_exited pr'); [done|]. cbn.
  rewrite list_lookup_insert_ne; [done|].
  intros ->. apply (Hne pr'); congruence.
Qed.



Section Orphan.
Variables (a : nat) (s : StreamState) (w0 : World).






End Orphan.

(** In a well-formed world the ['close'] event of a running stream's
    process runs the handler of [spawnFfmpeg] and nothing else. *)
Lemma step_close_running w p pr s code :
  wf w -> procs w !! p = Some pr -> p_exited pr = false ->
  heap w !! p_streamState pr = Some s -> status s = running ->
  step (Close p code) w =
  onClose (p_streamId pr) (p_filePath pr) (p_config pr) (p_streamState pr)
          code (mark_exited p w).
Proof.
  intros Hw Hpr Hx Hs Hst.
  assert (Hl : p_onClose pr = []).
  { destruct (p_onClose pr) eqn:E; [done|]. exfalso.
    assert (Hne : p_onClose pr <> []) by by rewrite E.
    pose proof (wf_listener_stopped w Hw p pr Hpr Hne) as H.
    unfold status_at in H. rewrite Hs in H. cbn in H. congruence. }
  cbn [step]. by rewrite Hpr, Hx, Hl.
Qed.





(** The handlers of the replaced stream go on working on the old state
    object: its process failing still schedules and performs a relaunch,
    while the id reports the new stream only. *)
Example orphan_keeps_relaunching :
  let w := run [Close 0%nat (Some 1); Fire 0%nat; Stop "s1"; StopAll]
               restarted_world in
  status_at 0 w = Some running /\
  spawn_count 0 w = 2%nat /\
  Report.status (getStreamStatus "s1" w) = "stopped".
Proof. repeat split. Qed.

(** * Further properties of the argument builder *)

Lemma in_input_side_build (x filePath : string) (config : Config) :
  In x (input_side (buildFfmpegArgs filePath config)) <->
  In x (inputOptions config).
Proof. by rewrite input_side_build. Qed.

(** X1: the input-side duration cap is present exactly when the guard
    of line 39 holds (no looping, a non-zero end, a start that is
    given, end after start), and it is then the last input option. For
    whole seconds that are safe integers, with a safe difference, its
    value is the decimal text of [endTime - startTime]: in that range
    the subtraction of line 40 is exact and [String] prints the
    digits. *)
Theorem input_duration_cap_iff (filePath : string) (config : Config) :
  (In "-t" (input_side (buildFfmpegArgs filePath config)) <->
   negb (isLooping config) && truthy_num (Config.endTime config)
   && not_nullish (Config.startTime config)
   && gt_js (Config.endTime config) (Config.startTime config) = true) /\
  (negb (isLooping config) && truthy_num (Config.endTime config)
   && not_nullish (Config.startTime config)
   && gt_js (Config.endTime config) (Config.startTime config) = true ->
   exists pre v,
     input_side (buildFfmpegArgs filePath config) = (pre ++ ["-t"; v])%list) /\
  (forall startTime endTime,
     isLooping config = false ->
     Config.startTime config = val startTime ->
     Config.endTime config = val endTime ->
     endTime <> 0 -> startTime < endTime ->
     isSafeInteger startTime = true -> isSafeInteger endTime = true ->
     isSafeInteger (endTime - startTime) = true ->
     exists pre,
       input_side (buildFfmpegArgs filePath config) =
       (pre ++ ["-t"; String_ (endTime - startTime)])%list).
Proof.
  rewrite input_side_build.
  pose proof (fun n => String_not_flag n "t" eq_refl) as HS.
  split; [|split].
  - unfold inputOptions, push.
    destruct (negb (isLooping config) && truthy_num (Config.endTime config)
              && not_nullish (Config.startTime config)
              && gt_js (Config.endTime config) (Config.startTime config)).
    + split; [done|]. intros _. apply in_or_app. right. by left.
    + split; [|done].
      repeat match goal with
             | |- context [if ?b then _ else _] => destruct b
             end; cbn; intros Hin;
        repeat match goal with
               | H : _ \/ _ |- _ => destruct H
               | H : False |- _ => destruct H
               | H : String_ _ = _ |- _ => now apply HS in H
               | H : _ = _ |- _ => discriminate H
               end.
  - intros Hg. unfold inputOptions, push. rewrite Hg.
    eexists _, _. reflexivity.
  - intros startTime endTime Hloop Hs He He0 Hlt _ _ _.
    unfold inputOptions, push. rewrite Hloop, Hs, He.
    cbn [negb andb truthy_num not_nullish gt_js to_number].
    destruct (Z.eqb_spec endTime 0); [lia|].
    destruct (Z.ltb_spec startTime endTime); [|lia].
    cbn [negb andb]. eexists. reflexivity.
Qed.

(** X2: when [loop] is set or [loopCount] is -1 the list starts with
    [-re -stream_loop -1], whatever else the configuration holds (a
    finite [loopCount] included). *)
Theorem infinite_loop_takes_precedence (filePath : string) (config : Config) :
  truthy_bool (Config.loop config)
  || strict_eq_num (Config.loopCount config) (-1) = true ->
  exists rest,
    buildFfmpegArgs filePath config = "-re" :: "-stream_loop" :: "-1" :: rest.
Proof.
  intros H. unfold buildFfmpegArgs, inputOptions, push. rewrite H.
  repeat match goal with
         | |- context [if ?b then _ else _] => destruct b
         end; cbn; eexists; reflexivity.
Qed.

Lemma infinite_loop_takes_precedence_witness :
  exists rest,
    buildFfmpegArgs "in.mp4"
      (Config.mk (val true) (val 3) undefined undefined undefined undefined
                 undefined undefined undefined "rtmp://x/live" undefined)
    = "-re" :: "-stream_loop" :: "-1" :: rest.
Proof. apply infinite_loop_takes_precedence. reflexivity. Defined.

(** X3: a loop option is among the input options exactly when the
    configuration loops; with [loop] unset and a count [n > 1] that is
    a safe integer the list starts with [-re -stream_loop] and the
    decimal text of [n - 1]. *)
Theorem loop_option_iff (filePath : string) (config : Config) :
  (In "-stream_loop" (input_side (buildFfmpegArgs filePath config)) <->
   isLooping config = true) /\
  (forall n, truthy_bool (Config.loop config) = false ->
             Config.loopCount config = val n -> 1 < n ->
             isSafeInteger n = true ->
             exists rest,
               buildFfmpegArgs filePath config =
               "-re" :: "-stream_loop" :: String_ (n - 1) :: rest).
Proof.
  split.
  - rewrite input_side_build.
    assert (HS : forall n, String_ n <> "-stream_loop").
    { intros n. unfold String_. destruct n as [|p|p]; cbn.
      - discriminate.
      - destruct (Pos.to_uint p); cbn; discriminate.
      - destruct (Pos.to_uint p) as [|d|d|d|d|d|d|d|d|d|d]; cbn;
          intros [= <-]; discriminate. }
    unfold inputOptions, isLooping, push.
    destruct (truthy_bool (Config.loop config)
              || strict_eq_num (Config.loopCount config) (-1)) eqn:E1;
      cbn [orb].
    + split; [done|]. intros _.
      repeat match goal with
             | |- context [if ?b then _ else _] => destruct b
             end; cbn; tauto.
    + destruct (gt_num (Config.loopCount config) 1) eqn:E2; cbn [orb negb andb].
      * split; [done|]. intros _.
        repeat match goal with
               | |- context [if ?b then _ else _] => destruct b
               end; cbn; tauto.
      * split; [|done].
        repeat match goal with
               | |- context [if ?b then _ else _] => destruct b
               end; cbn; intros Hin;
          repeat match goal with
                 | H : _ \/ _ |- _ => destruct H
                 | H : False |- _ => destruct H
                 | H : String_ _ = _ |- _ => now apply HS in H
                 | H : _ = _ |- _ => discriminate H
                 end.
  - intros n Hloop Hn Hgt _. unfold buildFfmpegArgs, inputOptions, push.
    rewrite Hloop, Hn. cbn.
    destruct (Z.eqb_spec n (-1)); [lia|].
    destruct (Z.ltb_spec 1 n); [|lia].
    repeat match goal with
           | |- context [if ?b then _ else _] => destruct b
           end; cbn; eexists; reflexivity.
Qed.

Lemma loop_option_iff_witness :
  exists rest,
    buildFfmpegArgs "in.mp4" sample_config
    = "-re" :: "-stream_loop" :: "2" :: rest.
Proof.
  apply (proj2 (loop_option_iff "in.mp4" sample_config) 3);
    [reflexivity|reflexivity|lia|reflexivity].
Defined.

Lemma input_duration_cap_iff_witness :
  exists pre,
    input_side (buildFfmpegArgs "in.mp4" trim_config) =
    (pre ++ ["-t"; "45"])%list.
Proof.
  apply (proj2 (proj2 (input_duration_cap_iff "in.mp4" trim_config)) 10 55);
    try reflexivity; lia.
Defined.

Lemma snoc4 {A : Type} (X a b c d : list A) :
  ((((X ++ a) ++ b) ++ c) ++ d = X ++ (a ++ b ++ c ++ d))%list.
Proof. by rewrite <- !app_assoc. Qed.

Lemma snoc3 {A : Type} (X a b c : list A) :
  (((X ++ a) ++ b) ++ c = X ++ (a ++ b ++ c))%list.
Proof. by rewrite <- !app_assoc. Qed.

(** X4: a positive [duration] in whole minutes, with [duration * 60] a
    safe integer, puts [-t] and the decimal text of [duration * 60] on
    the output side, between the audio options and [-f flv], whether or
    not the input loops; without a positive duration the audio options
    are followed by [-f flv] directly. *)
Theorem output_duration_cap (filePath : string) (config : Config) :
  (forall d, Config.duration config = val d -> 0 < d ->
     isSafeInteger (d * 60) = true ->
     exists pre,
       buildFfmpegArgs filePath config =
       (pre ++ ["-ar"; "44100"; "-t"; String_ (d * 60);
                "-f"; "flv"; rtmpDest config])%list) /\
  (truthy_num (Config.duration config) && gt_num (Config.duration config) 0
   = false ->
     exists pre,
       buildFfmpegArgs filePath config =
       (pre ++ ["-ar"; "44100"; "-f"; "flv"; rtmpDest config])%list).
Proof.
  split.
  - intros d Hd Hpos _.
    unfold buildFfmpegArgs, outputOptions, push. rewrite Hd. cbn.
    destruct (Z.eqb_spec d 0); [lia|]. destruct (Z.ltb_spec 0 d); [|lia].
    cbn [negb andb].
    match goal with
    | |- exists pre, ?L = (pre ++ ?T)%list => change (T `suffix_of` L)
    end.
    rewrite !app_assoc. rewrite snoc4. by eexists.
  - intros Hd.
    unfold buildFfmpegArgs, outputOptions, push. rewrite Hd.
    match goal with
    | |- exists pre, ?L = (pre ++ ?T)%list => change (T `suffix_of` L)
    end.
    rewrite !app_assoc. rewrite snoc3. by eexists.
Qed.

Lemma output_duration_cap_witness :
  exists pre,
    buildFfmpegArgs "in.mp4" sample_config =
    (pre ++ ["-ar"; "44100"; "-t"; "120"; "-f"; "flv"; "rtmp://x/live/key"])%list.
Proof.
  apply (proj1 (output_duration_cap "in.mp4" sample_config) 2);
    [reflexivity|lia|reflexivity].
Defined.

(** X5: the rate options come as one block before the audio options.
    For a whole-number bitrate R (4500 when the bitrate is missing,
    ["auto"] or 0) with 2R a safe integer, the block is
    [-b:v Rk -maxrate Rk -bufsize (2R)k]: the product and the rounding
    of line 92 are exact there. *)
Theorem bufsize_is_twice_bitrate (filePath : string) (config : Config) :
  isSafeInteger (effective_bitrate config * 2) = true ->
  exists pre post,
    buildFfmpegArgs filePath config =
    (pre ++ ["-b:v"; String_ (effective_bitrate config) +:+ "k";
             "-maxrate"; String_ (effective_bitrate config) +:+ "k";
             "-bufsize"; String_ (effective_bitrate config * 2) +:+ "k";
             "-c:a"; "aac"; "-b:a"; "128k"; "-ar"; "44100"] ++ post)%list.
Proof.
  intros _.
  unfold buildFfmpegArgs, outputOptions, push.
  set (Y := if (0 <? length (videoFilters config))%nat then _ else _).
  set (Y' := match Config.frameRate config with
             | val (FrNum _) => _
             | _ => _
             end).
  set (A := match Config.bitrate config with
            | val (BrNum n) => if negb (n =? 0) then _ else _
            | _ => _
            end).
  assert (HA : A = (((Y' ++ ["-b:v"; String_ (effective_bitrate config) +:+ "k"])
                     ++ ["-maxrate"; String_ (effective_bitrate config) +:+ "k"])
                     ++ ["-bufsize";
                         String_ (effective_bitrate config * 2) +:+ "k"])%list).
  { subst A. unfold effective_bitrate, Math_round.
    destruct (Config.bitrate config) as [| |[|n]]; try reflexivity.
    destruct (n =? 0); reflexivity. }
  rewrite HA. clear HA A.
  exists ((inputOptions config ++ ["-i"; filePath]) ++ Y')%list.
  destruct (truthy_num (Config.duration config)
            && gt_num (Config.duration config) 0);
    eexists; rewrite <- !app_assoc; cbn [app]; reflexivity.
Qed.

Lemma bufsize_is_twice_bitrate_witness :
  exists pre post,
    buildFfmpegArgs "in.mp4" sample_config =
    (pre ++ ["-b:v"; "2500k"; "-maxrate"; "2500k"; "-bufsize"; "5000k";
             "-c:a"; "aac"; "-b:a"; "128k"; "-ar"; "44100"] ++ post)%list.
Proof.
  apply (bufsize_is_twice_bitrate "in.mp4" sample_config). reflexivity.
Defined.

(** * Further properties of the progress parser *)

Lemma substring_0_split (n : nat) (s : string) :
  String.length (substring 0 n s) = n ->
  exists rest, s = substring 0 n s +:+ rest.
Proof.
  revert s. induction n as [|n IH]; intros s.
  - intros _. exists s. by destruct s.
  - destruct s as [|c s]; cbn; [discriminate|].
    intros [= H]. destruct (IH s H) as [rest Hr].
    exists rest.
    change (String c s = String c (substring 0 n s +:+ rest)). by f_equal.
Qed.

Lemma prefix_time_inv (s : string) :
  String.prefix "time=" s = true -> exists r, s = "time=" +:+ r.
Proof.
  intros H%prefix_correct. cbn [String.length] in H.
  destruct (substring_0_split 5 s) as [r Hr]; [by rewrite H|].
  exists r. by rewrite H in Hr.
Qed.

Lemma is_hms_app (t rest : string) :
  is_hms t = true -> substring 0 8 (t +:+ rest) = t.
Proof.
  destruct t as [|h1 [|h2 [|c1 [|m1 [|m2 [|c2 [|s1 [|s2 [|? ?]]]]]]]]];
    try discriminate.
  intros _. cbn. by destruct rest.
Qed.

Lemma prefix_time_app (r : string) : String.prefix "time=" ("time=" +:+ r) = true.
Proof.
  apply prefix_correct.
  change (String "t" (String "i" (String "m" (String "e" (String "="
            (substring 0 0 r))))) = "time=").
  by destruct r.
Qed.

Lemma is_hms_length (t : string) : is_hms t = true -> String.length t = 8%nat.
Proof.
  destruct t as [|h1 [|h2 [|c1 [|m1 [|m2 [|c2 [|s1 [|s2 [|? ?]]]]]]]]];
    by try discriminate.
Qed.

(** The pattern matches at the start of a string exactly when the
    string starts with ["time="] and an HH:MM:SS field. *)
Lemma match_time_here_spec (s t : string) :
  match_time_here s = Some t <->
  is_hms t = true /\ exists rest, s = "time=" +:+ t +:+ rest.
Proof.
  unfold match_time_here. split.
  - destruct (String.prefix "time=" s) eqn:Hp; [|discriminate]. cbn [andb].
    destruct (is_hms (substring 5 8 s)) eqn:Hh; [|discriminate].
    intros [= <-]. split; [done|].
    apply prefix_time_inv in Hp as [r ->].
    assert (Hsub : substring 5 8 ("time=" +:+ r) = substring 0 8 r)
      by reflexivity.
    rewrite Hsub in *. clear Hsub.
    destruct (substring_0_split 8 r) as [rest Hr];
      [by apply is_hms_length|].
    exists rest. by rewrite <- Hr.
  - intros [Hh [rest ->]].
    rewrite prefix_time_app.
    change (substring 5 8 ("time=" +:+ t +:+ rest))
      with (substring 0 8 (t +:+ rest)).
    rewrite is_hms_app by done. by rewrite Hh.
Qed.

Lemma match_time_cons (c : ascii) (output : string) :
  match_time (String c output) =
  match match_time_here (String c output) with
  | Some t => Some t
  | None => match_time output
  end.
Proof. reflexivity. Qed.

Lemma match_time_nil : match_time "" = None.
Proof. reflexivity. Qed.


(** X6: the parser returns the leftmost marker: the chunk is some text
    in which the pattern matches nowhere, then ["time="], the returned
    HH:MM:SS field and the rest. *)
Theorem match_time_leftmost (output t : string) :
  match_time output = Some t ->
  is_hms t = true /\
  exists pre rest,
    output = pre +:+ "time=" +:+ t +:+ rest /\
    forall pre1 c pre2,
      pre = pre1 +:+ String c pre2 ->
      match_time_here (String c pre2 +:+ "time=" +:+ t +:+ rest) = None.
Proof.
  induction output as [|c output IH].
  - by rewrite match_time_nil.
  - rewrite match_time_cons.
    destruct (match_time_here (String c output)) as [t'|] eqn:E.
    + intros [= ->]. apply match_time_here_spec in E as [Hh [rest Hr]].
      split; [done|]. exists "", rest. split; [done|].
      intros [|? ?] ? ?; discriminate.
    + intros H. destruct (IH H) as (Hh & pre & rest & -> & Hpre).
      split; [done|]. exists (String c pre), rest. split; [done|].
      intros [|c1 pre1] c' pre2; cbn; intros [= -> ->].
      * exact E.
      * by eapply Hpre.
Qed.

Lemma match_time_leftmost_witness :
  is_hms "00:01:30" = true /\
  exists pre rest,
    progress_line = pre +:+ "time=" +:+ "00:01:30" +:+ rest /\
    forall pre1 c pre2,
      pre = pre1 +:+ String c pre2 ->
      match_time_here (String c pre2 +:+ "time=" +:+ "00:01:30" +:+ rest)
      = None.
Proof. apply match_time_leftmost. reflexivity. Defined.





Lemma digit_value_bounds (c : ascii) :
  is_digit c = true -> 0 <= digit_value c <= 9.
Proof.
  unfold is_digit, digit_value. rewrite andb_true_iff.
  intros [H1%Nat.leb_le H2%Nat.leb_le]. lia.
Qed.

(** X8: the text the parser returns is [h1 h2 : m1 m2 : s1 s2] with six
    decimal digits, and the elapsed time that lines 147-148 compute
    from it is the number the first field denotes times 3600, plus the
    number of the second times 60, plus the number of the third; so it
    lies between 0 and 362439 seconds. *)
Theorem elapsed_seconds_of_match (output t : string) :
  match_time output = Some t ->
  exists h1 h2 m1 m2 s1 s2 : ascii,
    t = String h1 (String h2 (String ":" (String m1 (String m2
          (String ":" (String s1 (String s2 EmptyString))))))) /\
    Forall (fun c => (48 <= nat_of_ascii c <= 57)%nat)
           [h1; h2; m1; m2; s1; s2] /\
    elapsed_seconds t =
      ((Z.of_nat (nat_of_ascii h1) - 48) * 10
       + (Z.of_nat (nat_of_ascii h2) - 48)) * 3600
      + ((Z.of_nat (nat_of_ascii m1) - 48) * 10
         + (Z.of_nat (nat_of_ascii m2) - 48)) * 60
      + ((Z.of_nat (nat_of_ascii s1) - 48) * 10
         + (Z.of_nat (nat_of_ascii s2) - 48)) /\
    0 <= elapsed_seconds t <= 362439.
Proof.
  intros Hm. pose proof (match_time_is_hms _ _ Hm) as Hh.
  destruct (elapsed_seconds_hms t Hh)
    as (h1 & h2 & m1 & m2 & s1 & s2 & -> & He).
  cbn [is_hms] in Hh. rewrite !andb_true_iff in Hh.
  destruct Hh as [[[[[[[H1 H2] _] M1] M2] _] S1] S2].
  exists h1, h2, m1, m2, s1, s2. split; [done|].
  unfold two_digits, digit_value in He.
  unfold is_digit in H1, H2, M1, M2, S1, S2.
  rewrite andb_true_iff, !Nat.leb_le in H1, H2, M1, M2, S1, S2.
  split; [repeat (apply Forall_cons_2; [assumption|]); apply Forall_nil_2|].
  split; [by rewrite He|]. rewrite He. lia.
Qed.

Lemma elapsed_seconds_of_match_witness :
  exists h1 h2 m1 m2 s1 s2 : ascii,
    "00:01:30" = String h1 (String h2 (String ":" (String m1 (String m2
                   (String ":" (String s1 (String s2 EmptyString))))))) /\
    Forall (fun c => (48 <= nat_of_ascii c <= 57)%nat)
           [h1; h2; m1; m2; s1; s2] /\
    elapsed_seconds "00:01:30" =
      ((Z.of_nat (nat_of_ascii h1) - 48) * 10
       + (Z.of_nat (nat_of_ascii h2) - 48)) * 3600
      + ((Z.of_nat (nat_of_ascii m1) - 48) * 10
         + (Z.of_nat (nat_of_ascii m2) - 48)) * 60
      + ((Z.of_nat (nat_of_ascii s1) - 48) * 10
         + (Z.of_nat (nat_of_ascii s2) - 48)) /\
    0 <= elapsed_seconds "00:01:30" <= 362439.
Proof. apply (elapsed_seconds_of_match progress_line). reflexivity. Defined.

(** * Further properties of the supervisor *)

(** ** How the state objects evolve

    One walk through the handlers, for any relation [R] that every
    field update of the module respects. *)
Section Evolution.
Variable R : StreamState -> StreamState -> Prop.
Hypothesis R_refl : forall s, R s s.
Hypothesis R_trans : forall s1 s2 s3, R s1 s2 -> R s2 s3 -> R s1 s3.
Hypothesis R_status : forall st s, R s (set_status st s).
Hypothesis R_process : forall p s, R s (set_process p s).
Hypothesis R_timer : forall t s, R s (set_reconnectTimer t s).
Hypothesis R_retry :
  forall s, reconnectAttempts s < MAX_RECONNECT_ATTEMPTS ->
            R s (set_reconnectAttempts (reconnectAttempts s + 1) s).
Hypothesis R_progress :
  forall c t s, is_hms t = true -> R s (record_progress c t s).

Lemma evolves_refl w : evolves R w w.
Proof. split; [done|]. intros a s' Hs. left. eauto. Qed.

Lemma evolves_same_heap w w' : heap w' = heap w -> evolves R w w'.
Proof. intros H. unfold evolves. rewrite H. apply evolves_refl. Qed.

Lemma evolves_trans w1 w2 w3 :
  evolves R w1 w2 -> evolves R w2 w3 -> evolves R w1 w3.
Proof.
  intros [Hl1 H1] [Hl2 H2]. split; [lia|].
  intros a s3 Hs3.
  destruct (H2 a s3 Hs3) as [(s2 & Hs2 & HR2)|(Hn2 & now & c & HR2)].
  - destruct (H1 a s2 Hs2) as [(s1 & Hs1 & HR1)|(Hn1 & now & c & HR1)].
    + left. eauto.
    + right. split; [done|]. eauto.
  - right. split; [|by eauto].
    apply lookup_ge_None. apply lookup_ge_None in Hn2. lia.
Qed.

Lemma evolves_update a f w :
  (forall s, heap w !! a = Some s -> R s (f s)) ->
  evolves R w (update_stream a f w).
Proof.
  intros Hf. split; [cbn; by rewrite length_alter|].
  intros b s' (s & Hs & [[-> ->]|[_ ->]])%lookup_alter_inv; left; eauto.
Qed.

Lemma evolves_spawnFfmpeg sid f c a w :
  evolves R w (spawnFfmpeg sid f c a w).
Proof.
  split; [by rewrite heap_spawnFfmpeg, !length_alter|].
  intros b s' (s & Hs & [[-> ->]|[_ ->]])%lookup_spawnFfmpeg_inv; left; eauto.
Qed.

Lemma evolves_onStderrData c a output w :
  evolves R w (onStderrData c a output w).
Proof.
  unfold onStderrData. destruct (match_time output) as [t|] eqn:E.
  - apply evolves_update. intros s _. apply R_progress.
    by eapply match_time_is_hms.
  - apply evolves_refl.
Qed.

Lemma evolves_onClose sid f c a code w :
  evolves R w (onClose sid f c a code w).
Proof.
  unfold onClose. destruct (heap w !! a) as [s|] eqn:Hs;
    [|apply evolves_refl].
  destruct (status s), (bool_decide (code = Some 0));
    try apply evolves_refl; try (apply evolves_update; by eauto).
  destruct (Z.ltb_spec (reconnectAttempts s) MAX_RECONNECT_ATTEMPTS).
  - change (evolves R w
              (update_stream a (set_reconnectTimer (Some (nextTimer w)))
                 (setTimeout (Relaunch sid f c a) RECONNECT_DELAY_MS
                    (update_stream a (set_status reconnecting)
                       (update_stream a
                          (set_reconnectAttempts (reconnectAttempts s + 1))
                          w))).2)).
    eapply evolves_trans; [|apply evolves_update; by eauto].
    eapply evolves_trans; [|by apply evolves_same_heap].
    eapply evolves_trans; [|apply evolves_update; by eauto].
    apply evolves_update. intros s0 Hs0.
    assert (s0 = s) as -> by congruence. by apply R_retry.
  - apply evolves_update; by eauto.
Qed.

Lemma evolves_run_callback cb w : evolves R w (run_callback cb w).
Proof.
  destruct cb as [sid f c a|a]; cbn.
  - destruct (status_at a w) as [[]|]; try apply evolves_refl.
    apply evolves_spawnFfmpeg.
  - destruct (heap w !! a) as [s|]; [|apply evolves_refl].
    destruct (process s); [|apply evolves_refl].
    apply evolves_same_heap, heap_kill.
Qed.

Lemma evolves_startStream id f c now w :
  evolves R w (startStream id f c now w).2.
Proof.
  rewrite startStream_world.
  eapply evolves_trans; [|apply evolves_spawnFfmpeg].
  split; cbn; [rewrite length_app; lia|].
  intros a s' [Hs|[-> ->]]%lookup_snoc_inv.
  - left. eauto.
  - right. split; [by apply lookup_ge_None|].
    exists now, c. apply R_refl.
Qed.

Lemma evolves_stopStream id w : evolves R w (stopStream id w).2.
Proof.
  unfold stopStream.
  destruct (activeStreams w !! id) as [a|]; [|apply evolves_refl].
  destruct (heap w !! a) as [s|]; [|apply evolves_refl].
  destruct (negb (is_active (status s))); [apply evolves_refl|]. cbn [snd].
  eapply evolves_trans; [|apply evolves_same_heap, heap_terminate_process].
  eapply evolves_trans; [apply evolves_update; by eauto|].
  unfold cancel_reconnect. destruct (reconnectTimer s); [|apply evolves_refl].
  eapply evolves_trans; [|apply evolves_update; by eauto].
  by apply evolves_same_heap.
Qed.

Lemma evolves_stopAll_entry a w : evolves R w (stopAll_entry a w).
Proof.
  unfold stopAll_entry.
  destruct (heap w !! a) as [s|]; [|apply evolves_refl].
  destruct (is_active (status s)); [|apply evolves_refl].
  eapply evolves_trans; [|apply evolves_update; by eauto].
  apply evolves_same_heap.
  destruct (reconnectTimer s), (process s) as [p|]; cbn; try done.
  - destruct (procs w !! p) as [pr|]; [|done].
    destruct (negb (p_killed pr)); [|done]. by rewrite heap_kill.
  - destruct (procs w !! p) as [pr|]; [|done].
    destruct (negb (p_killed pr)); [|done]. by rewrite heap_kill.
Qed.

Lemma evolves_stopAllStreams w : evolves R w (stopAllStreams w).
Proof.
  unfold stopAllStreams. generalize (map_to_list (activeStreams w)).
  intros l. revert w. induction l as [|[id a] l IH]; intros w; cbn.
  - apply evolves_refl.
  - eapply evolves_trans; [apply evolves_stopAll_entry|apply IH].
Qed.

Lemma heap_clear_all (l : list nat) w :
  heap (foldl (fun w t => clearTimeout t w) w l) = heap w.
Proof.
  revert w. induction l as [|t l IH]; intros w; cbn; [done|]. by rewrite IH.
Qed.

Lemma evolves_step e w : evolves R w (step e w).
Proof.
  destruct e as [id f c now|id| |id|p output|p code|p|t]; cbn [step].
  - apply evolves_startStream.
  - apply evolves_stopStream.
  - apply evolves_stopAllStreams.
  - apply evolves_refl.
  - destruct (procs w !! p) as [pr|]; [|apply evolves_refl].
    destruct (p_exited pr); [apply evolves_refl|].
    apply evolves_onStderrData.
  - destruct (procs w !! p) as [pr|]; [|apply evolves_refl].
    destruct (p_exited pr); [apply evolves_refl|].
    eapply evolves_trans; [|apply evolves_same_heap, heap_clear_all].
    eapply evolves_trans; [|apply evolves_onClose].
    apply evolves_same_heap, heap_mark_exited.
  - apply evolves_refl.
  - destruct (timers w !! t) as [tm|]; [|apply evolves_refl].
    eapply evolves_trans; [|apply evolves_run_callback].
    by apply evolves_same_heap.
Qed.

Lemma evolves_run evs w : evolves R w (run evs w).
Proof.
  revert w. induction evs as [|e evs IH]; intros w.
  - apply evolves_refl.
  - change (run (e :: evs) w) with (run evs (step e w)).
    eapply evolves_trans; [apply evolves_step|apply IH].
Qed.

End Evolution.

Lemma elapsed_seconds_range (t : string) :
  is_hms t = true -> 0 <= elapsed_seconds t <= 362439.
Proof.
  intros Hh.
  destruct (elapsed_seconds_hms t Hh)
    as (h1 & h2 & m1 & m2 & s1 & s2 & -> & He).
  cbn [is_hms] in Hh. rewrite !andb_true_iff in Hh.
  destruct Hh as [[[[[[[H1 H2] _] M1] M2] _] S1] S2].
  apply digit_value_bounds in H1, H2, M1, M2, S1, S2.
  unfold two_digits in *. rewrite He. lia.
Qed.

Lemma within_bounds_progress c t s :
  is_hms t = true -> within_bounds s -> within_bounds (record_progress c t s).
Proof.
  unfold within_bounds. intros Hh [Ha Hl]. unfold record_progress.
  destruct (clip_window_known c); [|cbn; unfold MAX_RECONNECT_ATTEMPTS; lia].
  destruct (Z.ltb_spec 0 (clipDuration c));
    [|cbn; unfold MAX_RECONNECT_ATTEMPTS; lia].
  cbn. split; [unfold MAX_RECONNECT_ATTEMPTS; lia|].
  pose proof (elapsed_seconds_range t Hh) as [He _].
  pose proof (Z.div_pos (elapsed_seconds t) (clipDuration c) He). lia.
Qed.

(** X9: in every world reached from the empty one, each state object
    has between 0 and [MAX_RECONNECT_ATTEMPTS] reconnect attempts and
    a loop count of at least 1; so does what [getStreamStatus] reports. *)
Theorem counters_stay_within_bounds (w : World) (a : nat) (s : StreamState) :
  reachable w -> heap w !! a = Some s ->
  0 <= reconnectAttempts s <= 10 /\ 1 <= Stats.loopCount (stats s).
Proof.
  intros [evs ->] Hs.
  assert (Hev : evolves (fun s s' => within_bounds s -> within_bounds s')
                        init (run evs init)).
  { apply evolves_run; try done.
    - intros s1 s2 s3 H12 H23 H1. eauto.
    - unfold within_bounds. intros s0 ? [H1 H2]. split; cbn; [lia|done].
    - intros c t s0 Hh. by apply within_bounds_progress. }
  destruct Hev as [_ Hev].
  destruct (Hev a s Hs) as [(s0 & Hs0 & _)|(_ & now & c & HR)]; [done|].
  apply HR. split; cbn; [unfold MAX_RECONNECT_ATTEMPTS; lia|lia].
Qed.

Lemma counters_stay_within_bounds_witness :
  0 <= reconnectAttempts exhausted_state <= 10 /\
  1 <= Stats.loopCount (stats exhausted_state).
Proof.
  apply (counters_stay_within_bounds exhausted_world 0).
  - exists (Start "s1" "clip.mp4" clip_config 0 :: retries 10). reflexivity.
  - vm_compute. reflexivity.
Defined.

(** X10: a state object is never removed from the heap, and neither its
    [startedAt] nor its [config] changes, whatever events follow:
    [startedAt] is the time of the first launch, not of a relaunch. *)
Theorem state_identity_is_kept (w : World) (evs : list Event)
  (a : nat) (s : StreamState) :
  heap w !! a = Some s ->
  exists s', heap (run evs w) !! a = Some s' /\
             startedAt s' = startedAt s /\ config s' = config s.
Proof.
  intros Hs.
  assert (Hev : evolves same_identity w (run evs w)).
  { apply evolves_run; try done.
    - intros s1 s2 s3 [H1 H2] [H3 H4]. split; congruence.
    - intros c t s0 _. unfold record_progress.
      by repeat case_match. }
  destruct Hev as [Hlen Hev].
  assert (Hlt : (a < length (heap (run evs w)))%nat).
  { apply lookup_lt_Some in Hs. lia. }
  apply lookup_lt_is_Some in Hlt as [s' Hs'].
  exists s'. split; [done|].
  destruct (Hev a s' Hs') as [(s0 & Hs0 & HR)|(Hn & _)]; [|congruence].
  assert (s0 = s) as -> by congruence. exact HR.
Qed.

Lemma state_identity_is_kept_witness :
  exists s',
    heap (run (retries 3) running_world) !! 0%nat = Some s' /\
    startedAt s' = 0 /\ config s' = clip_config.
Proof.
  apply (state_identity_is_kept running_world (retries 3) 0 running_state).
  reflexivity.
Defined.

(** ** Events composed *)

(** X11: progress clears the record of failures. When a running
    stream's process reports a time marker and then exits with a code
    other than 0, the stream goes to [reconnecting] with the attempt
    counter at 1, however many attempts had been counted before. *)
Theorem progress_resets_retry_budget
  (w : World) (p : nat) (pr : Proc) (s : StreamState)
  (output t : string) (code : option Z) :
  reachable w ->
  procs w !! p = Some pr -> p_exited pr = false ->
  heap w !! p_streamState pr = Some s -> status s = running ->
  match_time output = Some t -> code <> Some 0 ->
  exists s',
    heap (run [StderrData p output; Close p code] w) !! p_streamState pr
      = Some s' /\
    status s' = reconnecting /\ reconnectAttempts s' = 1 /\
    Stats.time (stats s') = t.
Proof.
  intros Hreach Hpr Hx Hs Hst Ht Hcode. apply reachable_wf in Hreach.
  change (run [StderrData p output; Close p code] w)
    with (step (Close p code) (step (StderrData p output) w)).
  pose proof (wf_step (StderrData p output) w Hreach) as Hw1.
  assert (E1 : step (StderrData p output) w =
               update_stream (p_streamState pr)
                             (record_progress (p_config pr) t) w).
  { cbn [step]. rewrite Hpr, Hx. unfold onStderrData. by rewrite Ht. }
  rewrite E1 in *. clear E1.
  set (w1 := update_stream _ _ w) in *.
  destruct (record_progress_fields (p_config pr) t s) as (F1 & F2 & F3 & F4).
  assert (Hs1 : heap w1 !! p_streamState pr
                = Some (record_progress (p_config pr) t s)).
  { subst w1. unfold update_stream; cbn. by rewrite list_lookup_alter_eq, Hs. }
  rewrite (step_close_running w1 p pr _ code Hw1 Hpr Hx Hs1)
    by by rewrite F1.
  unfold onClose. simpl_world. rewrite Hs1, F1, Hst.
  rewrite bool_decide_eq_false_2 by done. rewrite F3. cbn [Z.ltb Z.compare].
  unfold MAX_RECONNECT_ATTEMPTS. cbn [Z.ltb Z.compare].
  eexists. split.
  - unfold update_stream; cbn. simpl_world.
    by rewrite !list_lookup_alter_eq, Hs1.
  - cbn. by rewrite F4.
Qed.

Lemma progress_resets_retry_budget_witness :
  exists s',
    heap (run [StderrData 10%nat progress_line; Close 10%nat (Some 1)]
              exhausted_world) !! 0%nat = Some s' /\
    status s' = reconnecting /\ reconnectAttempts s' = 1 /\
    Stats.time (stats s') = "00:01:30".
Proof.
  apply (progress_resets_retry_budget exhausted_world 10
           (mkProc "s1" "clip.mp4" clip_config 0
                   (buildFfmpegArgs "clip.mp4" clip_config)
                   false false [] [])
           exhausted_state progress_line "00:01:30" (Some 1));
    try (vm_compute; reflexivity); try discriminate.
  exists (Start "s1" "clip.mp4" clip_config 0 :: retries 10). reflexivity.
Defined.

(** X12: when the process of a running stream exits with code 0 the
    stream is [completed]: no relaunch is scheduled, and the status
    stays [completed] under every later event. *)
Theorem clean_exit_completes
  (w : World) (p : nat) (pr : Proc) (s : StreamState) :
  reachable w ->
  procs w !! p = Some pr -> p_exited pr = false ->
  heap w !! p_streamState pr = Some s -> status s = running ->
  heap (step (Close p (Some 0)) w) !! p_streamState pr
    = Some (set_status completed s) /\
  timers (step (Close p (Some 0)) w) = timers w /\
  forall evs,
    status_at (p_streamState pr) (run evs (step (Close p (Some 0)) w))
    = Some completed.
Proof.
  intros Hreach Hpr Hx Hs Hst. apply reachable_wf in Hreach.
  rewrite (step_close_running w p pr s _ Hreach Hpr Hx Hs Hst).
  unfold onClose. simpl_world. rewrite Hs, Hst.
  rewrite bool_decide_eq_true_2 by done.
  assert (H1 : heap (update_stream (p_streamState pr) (set_status completed)
                       (mark_exited p w)) !! p_streamState pr
               = Some (set_status completed s)).
  { unfold update_stream; cbn. simpl_world.
    by rewrite list_lookup_alter_eq, Hs. }
  split; [done|]. split; [cbn; by simpl_world|].
  intros evs.
  apply (settled_run (p_streamState pr) completed
           (spawn_count (p_streamState pr)
              (update_stream (p_streamState pr) (set_status completed)
                 (mark_exited p w))) eq_refl evs).
  split; [|done]. unfold status_at. by rewrite H1.
Qed.

Lemma clean_exit_completes_witness :
  heap (step (Close 0%nat (Some 0)) running_world) !! 0%nat
    = Some (set_status completed running_state) /\
  timers (step (Close 0%nat (Some 0)) running_world) = timers running_world /\
  forall evs,
    status_at 0 (run evs (step (Close 0%nat (Some 0)) running_world))
    = Some completed.
Proof.
  apply (clean_exit_completes running_world 0
           (mkProc "s1" "clip.mp4" clip_config 0
                   (buildFfmpegArgs "clip.mp4" clip_config)
                   false false [] [])
           running_state); try reflexivity.
  exists [Start "s1" "clip.mp4" clip_config 0]. reflexivity.
Defined.

(** X13: [stopStream] is idempotent: a second call on the same id
    returns false and changes nothing, whatever the first one did. *)
Theorem stopStream_twice (w : World) (id : string) :
  stopStream id (stopStream id w).2 = (false, (stopStream id w).2).
Proof.
  destruct (activeStreams w !! id) as [a|] eqn:Hid.
  2: { unfold stopStream at 2 3. rewrite Hid. cbn [snd].
       unfold stopStream. by rewrite Hid. }
  destruct (heap w !! a) as [s|] eqn:Hs.
  2: { unfold stopStream at 2 3. rewrite Hid, Hs. cbn [snd].
       unfold stopStream. by rewrite Hid, Hs. }
  destruct (is_active (status s)) eqn:Hact.
  2: { unfold stopStream at 2 3. rewrite Hid, Hs, Hact. cbn [snd negb].
       unfold stopStream. by rewrite Hid, Hs, Hact. }
  rewrite (stopStream_active id w a s) by done. cbn [snd].
  set (w1 := update_stream a (set_status stopped) w).
  assert (Hs1 : heap w1 !! a = Some (set_status stopped s)).
  { subst w1. unfold update_stream; cbn. by rewrite list_lookup_alter_eq, Hs. }
  unfold stopStream.
  rewrite activeStreams_terminate_process.
  assert (Hr : activeStreams (cancel_reconnect a s w1) = activeStreams w).
  { unfold cancel_reconnect. by destruct (reconnectTimer s). }
  rewrite Hr, Hid, heap_terminate_process.
  rewrite (lookup_cancel_reconnect a s w1 _ Hs1).
  by destruct (reconnectTimer s).
Qed.

(** The world after [stopStream] has stopped a stream whose process is
    alive. *)
Lemma stopStream_live w id a s p pr :
  wf w -> activeStreams w !! id = Some a -> heap w !! a = Some s ->
  is_active (status s) = true -> process s = Some p ->
  procs w !! p = Some pr -> p_exited pr = false ->
  p_streamState pr = a /\
  procs (stopStream id w).2 !! p =
    Some (mkProc (p_streamId pr) (p_filePath pr) (p_config pr)
                 (p_streamState pr) (p_args pr) true false
                 (p_signals pr ++ [SIGINT]) [nextTimer w]) /\
  timers (stopStream id w).2 !! nextTimer w
    = Some (mkTimer (ForceKill a) 5000) /\
  exists s1, heap (stopStream id w).2 !! a = Some s1 /\
             status s1 = stopped /\ process s1 = Some p.
Proof.
  intros Hw Hid Hs Hact Hp Hpr Hx.
  assert (Ho : p_streamState pr = a) by by eapply handle_owner.
  assert (Hk : p_killed pr = false).
  { eapply (wf_active_not_killed w Hw); eauto. }
  assert (Hl : p_onClose pr = []).
  { destruct (p_onClose pr) eqn:E; [done|]. exfalso.
    assert (Hne : p_onClose pr <> []) by by rewrite E.
    pose proof (wf_listener_stopped w Hw p pr Hpr Hne) as H.
    unfold status_at in H. rewrite Ho, Hs in H. cbn in H.
    injection H as H. by rewrite H in Hact. }
  rewrite (stopStream_active id w a s) by done. cbn [snd].
  set (w1 := update_stream a (set_status stopped) w).
  assert (Hs1 : heap w1 !! a = Some (set_status stopped s)).
  { subst w1. unfold update_stream; cbn. by rewrite list_lookup_alter_eq, Hs. }
  assert (Hpr2 : procs (cancel_reconnect a s w1) !! p = Some pr).
  { by rewrite procs_cancel_reconnect. }
  destruct (terminate_process_live a s _ p pr Hp Hpr2 Hk Hx) as [H1 H2].
  assert (Hn : nextTimer (cancel_reconnect a s w1) = nextTimer w).
  { unfold cancel_reconnect. by destruct (reconnectTimer s). }
  rewrite Hn, Hl in H1. rewrite Hn in H2.
  split; [done|]. split; [done|]. split.
  - rewrite H2. by rewrite lookup_insert_eq.
  - rewrite heap_terminate_process, (lookup_cancel_reconnect a s w1 _ Hs1).
    destruct (reconnectTimer s); eauto.
Qed.

(** X14: the grace timer is disarmed by the exit. After [stopStream] on
    a stream whose process is alive, the ['close'] event of that process
    removes the pending forced kill; the process has received SIGINT
    and nothing else, and the stream stays [stopped]. *)
Theorem close_disarms_forced_kill
  (w : World) (id : string) (a p : nat) (s : StreamState) (pr : Proc)
  (code : option Z) :
  reachable w ->
  activeStreams w !! id = Some a -> heap w !! a = Some s ->
  is_active (status s) = true -> process s = Some p ->
  procs w !! p = Some pr -> p_exited pr = false ->
  timers (run [Stop id; Close p code] w) !! nextTimer w = None /\
  status_at a (run [Stop id; Close p code] w) = Some stopped /\
  exists pr',
    procs (run [Stop id; Close p code] w) !! p = Some pr' /\
    p_exited pr' = true /\
    p_signals pr' = (p_signals pr ++ [SIGINT])%list.
Proof.
  intros Hreach Hid Hs Hact Hp Hpr Hx. apply reachable_wf in Hreach.
  destruct (stopStream_live w id a s p pr Hreach Hid Hs Hact Hp Hpr Hx)
    as (Ho & Hpr1 & Ht1 & s1 & Hs1 & Hst1 & Hp1).
  change (run [Stop id; Close p code] w)
    with (step (Close p code) (stopStream id w).2).
  set (w1 := (stopStream id w).2) in *. clearbody w1.
  assert (Hlt : (p < length (procs w1))%nat) by by eapply lookup_lt_Some.
  cbn [step]. rewrite Hpr1. cbn [p_exited p_onClose p_streamState
    p_streamId p_filePath p_config foldl].
  unfold onClose. simpl_world. rewrite Ho, Hs1, Hst1.
  cbn [timers clearTimeout heap procs].
  simpl_world. rewrite lookup_delete_eq.
  split; [done|].
  split; [unfold status_at; cbn [heap clearTimeout]; simpl_world;
          rewrite Hs1; cbn; by rewrite Hst1|].
  unfold mark_exited. rewrite Hpr1. cbn.
  rewrite list_lookup_insert_eq by done. eauto.
Qed.

Lemma close_disarms_forced_kill_witness :
  timers (run [Stop "s1"; Close 0%nat None] running_world) !! 0%nat = None /\
  status_at 0 (run [Stop "s1"; Close 0%nat None] running_world)
    = Some stopped /\
  exists pr',
    procs (run [Stop "s1"; Close 0%nat None] running_world) !! 0%nat
      = Some pr' /\
    p_exited pr' = true /\ p_signals pr' = [SIGINT].
Proof.
  apply (close_disarms_forced_kill running_world "s1" 0 0 running_state
           (mkProc "s1" "clip.mp4" clip_config 0
                   (buildFfmpegArgs "clip.mp4" clip_config)
                   false false [] []) None); try reflexivity.
  exists [Start "s1" "clip.mp4" clip_config 0]. reflexivity.
Defined.

(** X15: if the process has not exited when the grace timer armed by
    [stopStream] comes due, it receives SIGKILL after the SIGINT, and
    the timer is gone. *)
Theorem grace_timer_forces_kill
  (w : World) (id : string) (a p : nat) (s : StreamState) (pr : Proc) :
  reachable w ->
  activeStreams w !! id = Some a -> heap w !! a = Some s ->
  is_active (status s) = true -> process s = Some p ->
  procs w !! p = Some pr -> p_exited pr = false ->
  timers (run [Stop id; Fire (nextTimer w)] w) !! nextTimer w = None /\
  exists pr',
    procs (run [Stop id; Fire (nextTimer w)] w) !! p = Some pr' /\
    p_exited pr' = false /\
    p_signals pr' = (p_signals pr ++ [SIGINT; SIGKILL])%list.
Proof.
  intros Hreach Hid Hs Hact Hp Hpr Hx. apply reachable_wf in Hreach.
  destruct (stopStream_live w id a s p pr Hreach Hid Hs Hact Hp Hpr Hx)
    as (Ho & Hpr1 & Ht1 & s1 & Hs1 & Hst1 & Hp1).
  change (run [Stop id; Fire (nextTimer w)] w)
    with (step (Fire (nextTimer w)) (stopStream id w).2).
  set (w1 := (stopStream id w).2) in *. clearbody w1.
  assert (Hlt : (p < length (procs w1))%nat) by by eapply lookup_lt_Some.
  cbn [step]. rewrite Ht1. cbn [callback run_callback clearTimeout heap].
  rewrite Hs1, Hp1. simpl_world. cbn [timers clearTimeout].
  rewrite lookup_delete_eq. split; [done|].
  unfold kill. cbn [procs clearTimeout]. rewrite Hpr1. cbn.
  rewrite list_lookup_insert_eq by done.
  eexists. split; [reflexivity|]. split; [done|].
  cbn. by rewrite <- app_assoc.
Qed.

Lemma grace_timer_forces_kill_witness :
  timers (run [Stop "s1"; Fire 0%nat] running_world) !! 0%nat = None /\
  exists pr',
    procs (run [Stop "s1"; Fire 0%nat] running_world) !! 0%nat = Some pr' /\
    p_exited pr' = false /\ p_signals pr' = [SIGINT; SIGKILL].
Proof.
  apply (grace_timer_forces_kill running_world "s1" 0 0 running_state
           (mkProc "s1" "clip.mp4" clip_config 0
                   (buildFfmpegArgs "clip.mp4" clip_config)
                   false false [] [])); try reflexivity.
  exists [Start "s1" "clip.mp4" clip_config 0]. reflexivity.
Defined.

(** X16: right after [startStream] the id reports a running stream with
    no attempts and fresh stats, whatever was registered under it
    before; the report of every other id is what it was. *)
Theorem start_then_status
  (w : World) (id id' f : string) (c : Config) (now : Z) :
  reachable w ->
  getStreamStatus id (startStream id f c now w).2 =
    Report.mk "running" (val false) (val 0)
              (Report.mk_stats (val "00:00:00") (val 1)) /\
  (id' <> id ->
   getStreamStatus id' (startStream id f c now w).2 = getStreamStatus id' w).
Proof.
  intros Hreach. apply reachable_wf in Hreach.
  rewrite startStream_world. unfold getStreamStatus.
  rewrite heap_spawnFfmpeg.
  cbn [activeStreams spawnFfmpeg spawn update_stream set_heap
       set_activeStreams set_procs heap].
  split.
  - rewrite lookup_insert_eq. cbn [mbind option_bind].
    rewrite !list_lookup_alter_eq.
    rewrite lookup_app_r by lia. by rewrite Nat.sub_diag.
  - intros Hne. rewrite lookup_insert_ne by done.
    destruct (activeStreams w !! id') as [a'|] eqn:Hid'; [|done].
    cbn [mbind option_bind].
    pose proof (wf_registry_bound w Hreach _ _ Hid') as Hlt.
    rewrite !list_lookup_alter_ne by lia.
    by rewrite lookup_app_l.
Qed.

Lemma start_then_status_witness :
  getStreamStatus "s1" (startStream "s1" "other.mp4" sample_config 7
                          reconnecting_world).2 =
    Report.mk "running" (val false) (val 0)
              (Report.mk_stats (val "00:00:00") (val 1)).
Proof.
  apply (start_then_status reconnecting_world "s1" "s2").
  exists [Start "s1" "clip.mp4" clip_config 0; Close 0%nat (Some 1)].
  reflexivity.
Defined.

(** ** [stopAllStreams] *)

Lemma status_at_stopAll_entry a w s :
  heap w !! a = Some s ->
  status_at a (stopAll_entry a w) =
  Some (if is_active (status s) then stopped else status s).
Proof.
  intros Hs. unfold stopAll_entry. rewrite Hs.
  destruct (is_active (status s)); [|unfold status_at; by rewrite Hs].
  rewrite status_at_update. rewrite decide_True by done.
  assert (Hh : forall w', heap w' = heap w ->
                          (fun s0 => status (set_status stopped s0))
                            <$> heap w' !! a = Some stopped).
  { intros w' ->. by rewrite Hs. }
  apply Hh.
  destruct (reconnectTimer s), (process s) as [p|]; cbn; try done.
  - destruct (procs w !! p) as [pr|]; [|done].
    destruct (negb (p_killed pr)); [|done]. by rewrite heap_kill.
  - destruct (procs w !! p) as [pr|]; [|done].
    destruct (negb (p_killed pr)); [|done]. by rewrite heap_kill.
Qed.

Lemma timers_stopAll_entry a w :
  timers (stopAll_entry a w) ⊆ timers w /\
  nextTimer (stopAll_entry a w) = nextTimer w.
Proof.
  unfold stopAll_entry.
  destruct (heap w !! a) as [s|]; [|done].
  destruct (is_active (status s)); [|done].
  cbn [update_stream set_heap timers nextTimer].
  destruct (reconnectTimer s) as [t|], (process s) as [p|]; cbn.
  - destruct (procs w !! p) as [pr|]; [destruct (negb (p_killed pr))|];
      simpl_world; cbn; split; try done; apply delete_subseteq.
  - split; [apply delete_subseteq|done].
  - destruct (procs w !! p) as [pr|]; [destruct (negb (p_killed pr))|];
      simpl_world; done.
  - done.
Qed.

Lemma stopAll_fold_inactive (l : list (string * nat)) w a :
  is_Some (heap w !! a) ->
  (In a (map snd l) \/
   exists st, status_at a w = Some st /\ is_active st = false) ->
  exists st,
    status_at a (foldl (fun w entry => stopAll_entry entry.2 w) w l) = Some st /\
    is_active st = false.
Proof.
  revert w. induction l as [|[id' a'] l IH]; intros w [s Hs] H.
  - destruct H as [[]|H]. exact H.
  - cbn [foldl snd]. apply IH.
    + destruct (evolves_stopAll_entry (fun _ _ => True) (fun _ => I)
                  (fun _ _ _ _ _ => I) (fun _ _ => I) a' w) as [Hlen _].
      apply lookup_lt_is_Some. apply lookup_lt_Some in Hs. lia.
    + cbn [map snd In] in H.
      destruct H as [[->|Hin]|(st & Hst & Hinact)].
      * right. rewrite (status_at_stopAll_entry _ _ _ Hs).
        destruct (is_active (status s)) eqn:E; eauto.
      * by left.
      * right. exists st. split; [|done].
        by apply (settled_stopAll_entry a st (spawn_count a w) Hinact).
Qed.

Lemma stopAll_fold_timers (l : list (string * nat)) w :
  timers (foldl (fun w entry => stopAll_entry entry.2 w) w l) ⊆ timers w /\
  nextTimer (foldl (fun w entry => stopAll_entry entry.2 w) w l) = nextTimer w.
Proof.
  revert w. induction l as [|[id' a'] l IH]; intros w; [done|].
  cbn [foldl snd]. destruct (IH (stopAll_entry a' w)) as [H1 H2].
  destruct (timers_stopAll_entry a' w) as [H3 H4].
  split; [by etrans|congruence].
Qed.

(** X17: after [stopAllStreams] no registered stream is [running] or
    [reconnecting], a stream that was not active keeps its status, the
    registry is the same, and no timer has been added: pending timers
    are only removed, so no grace period is armed. *)
Theorem stopAllStreams_stops_every_registered_stream (w : World) :
  reachable w ->
  (forall id a, activeStreams w !! id = Some a ->
     exists st, status_at a (stopAllStreams w) = Some st /\
                is_active st = false) /\
  (forall a st, status_at a w = Some st -> is_active st = false ->
                status_at a (stopAllStreams w) = Some st) /\
  activeStreams (stopAllStreams w) = activeStreams w /\
  timers (stopAllStreams w) ⊆ timers w /\
  nextTimer (stopAllStreams w) = nextTimer w.
Proof.
  intros Hreach. apply reachable_wf in Hreach.
  split; [|split; [|split]].
  - intros id a Hid. unfold stopAllStreams. apply stopAll_fold_inactive.
    + apply lookup_lt_is_Some. by eapply wf_registry_bound.
    + left. apply in_map_iff. exists (id, a). split; [done|].
      apply list_elem_of_In. by apply elem_of_map_to_list.
  - intros a st Hst Hinact.
    by apply (settled_stopAllStreams a st (spawn_count a w) Hinact).
  - apply activeStreams_stopAllStreams.
  - apply stopAll_fold_timers.
Qed.

Lemma stopAllStreams_stops_every_registered_stream_witness :
  exists st, status_at 0 (stopAllStreams reconnecting_world) = Some st /\
             is_active st = false.
Proof.
  assert (Hreach : reachable reconnecting_world).
  { exists [Start "s1" "clip.mp4" clip_config 0; Close 0%nat (Some 1)].
    reflexivity. }
  apply (proj1 (stopAllStreams_stops_every_registered_stream
                  reconnecting_world Hreach) "s1").
  reflexivity.
Defined.

(** ** How the process handles evolve *)

Lemma proc_history_refl pr : proc_history pr pr.
Proof. unfold proc_history. by split_and!. Qed.

Lemma proc_history_trans pr1 pr2 pr3 :
  proc_history pr1 pr2 -> proc_history pr2 pr3 -> proc_history pr1 pr3.
Proof.
  unfold proc_history.
  intros (A1 & A2 & A3 & A4 & A5 & A6 & A7 & A8)
         (B1 & B2 & B3 & B4 & B5 & B6 & B7 & B8).
  split_and!; try congruence.
  - by etrans.
  - intros H. destruct (A7 H) as [H1 H2]. destruct (B7 H1).
    split; congruence.
  - eauto.
Qed.

Lemma procs_evolve_refl w : procs_evolve w w.
Proof.
  split; [done|]. intros p pr Hpr. left. eauto using proc_history_refl.
Qed.

Lemma procs_evolve_same w w' : procs w' = procs w -> procs_evolve w w'.
Proof. intros H. unfold procs_evolve. rewrite H. apply procs_evolve_refl. Qed.

Lemma procs_evolve_trans w1 w2 w3 :
  procs_evolve w1 w2 -> procs_evolve w2 w3 -> procs_evolve w1 w3.
Proof.
  intros [Hl1 H1] [Hl2 H2]. split; [lia|].
  intros p pr3 Hpr3.
  destruct (H2 p pr3 Hpr3) as [(pr2 & Hpr2 & HQ2)|(Hn2 & sid & f & c & a & HQ2)].
  - destruct (H1 p pr2 Hpr2)
      as [(pr1 & Hpr1 & HQ1)|(Hn1 & sid & f & c & a & HQ1)].
    + left. eauto using proc_history_trans.
    + right. split; [done|]. exists sid, f, c, a.
      eauto using proc_history_trans.
  - right. split; [|by eauto 10].
    apply lookup_ge_None. apply lookup_ge_None in Hn2. lia.
Qed.

Lemma procs_evolve_insert w p pr y :
  procs w !! p = Some pr -> proc_history pr y ->
  procs_evolve w (set_procs (<[p := y]> (procs w)) w).
Proof.
  intros Hpr HQ. split; [cbn; by rewrite length_insert|].
  intros q pr'. cbn.
  intros [(-> & -> & _)|(Hne & Hq)]%lookup_insert_inv; left;
    eauto using proc_history_refl.
Qed.

Lemma procs_evolve_kill p sig w : procs_evolve w (kill p sig w).
Proof.
  unfold kill. destruct (procs w !! p) as [pr|] eqn:E;
    [|apply procs_evolve_refl].
  destruct (p_exited pr) eqn:Ex; [apply procs_evolve_refl|].
  apply (procs_evolve_insert w p pr); [done|].
  unfold proc_history; cbn. split_and!; try done; try congruence.
  by apply prefix_app_r.
Qed.

Lemma procs_evolve_on_close_clear p t w :
  procs_evolve w (on_close_clear p t w).
Proof.
  unfold on_close_clear. destruct (procs w !! p) as [pr|] eqn:E;
    [|apply procs_evolve_refl].
  apply (procs_evolve_insert w p pr); [done|].
  unfold proc_history; cbn. by split_and!.
Qed.

Lemma procs_evolve_mark_exited p w : procs_evolve w (mark_exited p w).
Proof.
  unfold mark_exited. destruct (procs w !! p) as [pr|] eqn:E;
    [|apply procs_evolve_refl].
  apply (procs_evolve_insert w p pr); [done|].
  unfold proc_history; cbn. by split_and!.
Qed.

Lemma procs_evolve_spawnFfmpeg sid f c a w :
  procs_evolve w (spawnFfmpeg sid f c a w).
Proof.
  split; rewrite procs_spawnFfmpeg; [rewrite length_app; lia|].
  intros p pr' [Hpr|[-> ->]]%lookup_snoc_inv.
  - left. eauto using proc_history_refl.
  - right. split; [by apply lookup_ge_None|].
    exists sid, f, c, a. apply proc_history_refl.
Qed.

Lemma procs_clear_all (l : list nat) w :
  procs (foldl (fun w t => clearTimeout t w) w l) = procs w.
Proof.
  revert w. induction l as [|t l IH]; intros w; cbn; [done|]. by rewrite IH.
Qed.

Lemma procs_onClose sid f c a code w :
  procs (onClose sid f c a code w) = procs w.
Proof.
  unfold onClose. destruct (heap w !! a) as [s|]; [|done].
  destruct (status s), (bool_decide (code = Some 0)); try done.
  by destruct (reconnectAttempts s <? MAX_RECONNECT_ATTEMPTS).
Qed.

Lemma procs_evolve_terminate_process a s w :
  procs_evolve w (terminate_process a s w).
Proof.
  unfold terminate_process.
  destruct (process s) as [p|]; [|apply procs_evolve_refl].
  destruct (procs w !! p) as [pr|]; [|apply procs_evolve_refl].
  destruct (negb (p_killed pr)); [|apply procs_evolve_refl].
  change (procs_evolve w
            (on_close_clear p (nextTimer (kill p SIGINT w))
               (setTimeout (ForceKill a) 5000 (kill p SIGINT w)).2)).
  eapply procs_evolve_trans; [|apply procs_evolve_on_close_clear].
  eapply procs_evolve_trans; [apply procs_evolve_kill|].
  by apply procs_evolve_same.
Qed.

Lemma procs_evolve_stopStream id w : procs_evolve w (stopStream id w).2.
Proof.
  unfold stopStream.
  destruct (activeStreams w !! id) as [a|]; [|apply procs_evolve_refl].
  destruct (heap w !! a) as [s|]; [|apply procs_evolve_refl].
  destruct (negb (is_active (status s))); [apply procs_evolve_refl|].
  cbn [snd].
  eapply procs_evolve_trans; [|apply procs_evolve_terminate_process].
  apply procs_evolve_same. by rewrite procs_cancel_reconnect.
Qed.

Lemma procs_evolve_stopAll_entry a w : procs_evolve w (stopAll_entry a w).
Proof.
  unfold stopAll_entry.
  destruct (heap w !! a) as [s|]; [|apply procs_evolve_refl].
  destruct (is_active (status s)); [|apply procs_evolve_refl].
  match goal with
  | |- procs_evolve _ (update_stream _ _ ?X) =>
      apply (procs_evolve_trans _ X); [|by apply procs_evolve_same]
  end.
  set (w1 := match reconnectTimer s with
             | Some t => clearTimeout t w
             | None => w
             end).
  assert (H1 : procs_evolve w w1).
  { apply procs_evolve_same. subst w1. by destruct (reconnectTimer s). }
  clearbody w1. eapply procs_evolve_trans; [exact H1|].
  destruct (process s) as [p|]; [|apply procs_evolve_refl].
  destruct (procs w1 !! p) as [pr|]; [|apply procs_evolve_refl].
  destruct (negb (p_killed pr)); [|apply procs_evolve_refl].
  apply procs_evolve_kill.
Qed.

Lemma procs_evolve_stopAllStreams w : procs_evolve w (stopAllStreams w).
Proof.
  unfold stopAllStreams. generalize (map_to_list (activeStreams w)).
  intros l. revert w. induction l as [|[id a] l IH]; intros w; cbn.
  - apply procs_evolve_refl.
  - eapply procs_evolve_trans; [apply procs_evolve_stopAll_entry|apply IH].
Qed.

Lemma procs_evolve_step e w : procs_evolve w (step e w).
Proof.
  destruct e as [id f c now|id| |id|p output|p code|p|t]; cbn [step].
  - rewrite startStream_world.
    eapply procs_evolve_trans; [|apply procs_evolve_spawnFfmpeg].
    by apply procs_evolve_same.
  - apply procs_evolve_stopStream.
  - apply procs_evolve_stopAllStreams.
  - apply procs_evolve_refl.
  - destruct (procs w !! p) as [pr|]; [|apply procs_evolve_refl].
    destruct (p_exited pr); [apply procs_evolve_refl|].
    apply procs_evolve_same. unfold onStderrData. by case_match.
  - destruct (procs w !! p) as [pr|]; [|apply procs_evolve_refl].
    destruct (p_exited pr); [apply procs_evolve_refl|].
    eapply procs_evolve_trans; [apply procs_evolve_mark_exited|].
    apply procs_evolve_same. by rewrite procs_clear_all, procs_onClose.
  - apply procs_evolve_refl.
  - destruct (timers w !! t) as [[cb d]|]; [|apply procs_evolve_refl].
    cbn [callback]. destruct cb as [sid f c a|a]; cbn [run_callback].
    + destruct (status_at a (clearTimeout t w)) as [[]|];
        try by apply procs_evolve_same.
      eapply procs_evolve_trans; [|apply procs_evolve_spawnFfmpeg].
      by apply procs_evolve_same.
    + cbn [heap clearTimeout].
      destruct (heap w !! a) as [s|]; [|by apply procs_evolve_same].
      destruct (process s); [|by apply procs_evolve_same].
      eapply procs_evolve_trans; [|apply procs_evolve_kill].
      by apply procs_evolve_same.
Qed.

Lemma procs_evolve_run evs w : procs_evolve w (run evs w).
Proof.
  revert w. induction evs as [|e evs IH]; intros w.
  - apply procs_evolve_refl.
  - change (run (e :: evs) w) with (run evs (step e w)).
    eapply procs_evolve_trans; [apply procs_evolve_step|apply IH].
Qed.

Lemma proc_history_run evs w p pr :
  procs w !! p = Some pr ->
  exists pr', procs (run evs w) !! p = Some pr' /\ proc_history pr pr'.
Proof.
  intros Hpr. destruct (procs_evolve_run evs w) as [Hlen Hev].
  assert (Hlt : (p < length (procs (run evs w)))%nat).
  { apply lookup_lt_Some in Hpr. lia. }
  apply lookup_lt_is_Some in Hlt as [pr' Hpr'].
  exists pr'. split; [done|].
  destruct (Hev p pr' Hpr') as [(pr0 & Hpr0 & HQ)|(Hn & _)]; [|congruence].
  by assert (pr0 = pr) as -> by congruence.
Qed.

Lemma reachable_proc_command w p pr :
  reachable w -> procs w !! p = Some pr ->
  p_args pr = buildFfmpegArgs (p_filePath pr) (p_config pr).
Proof.
  intros [evs ->] Hpr.
  destruct (procs_evolve_run evs init) as [_ Hev].
  destruct (Hev p pr Hpr)
    as [(pr0 & Hpr0 & _)|(_ & sid & f & c & a & HQ)]; [done|].
  destruct HQ as (_ & H2 & H3 & _ & H5 & _). cbn in *. congruence.
Qed.

(** X18: every process was started with the arguments that
    [buildFfmpegArgs] gives for the file and configuration its handlers
    captured, and a handle keeps its arguments, its captured variables
    and its stream for good. *)
Theorem process_command_is_fixed (w : World) (p : nat) (pr : Proc) :
  reachable w -> procs w !! p = Some pr ->
  p_args pr = buildFfmpegArgs (p_filePath pr) (p_config pr) /\
  forall evs,
    exists pr',
      procs (run evs w) !! p = Some pr' /\
      p_args pr' = p_args pr /\ p_filePath pr' = p_filePath pr /\
      p_config pr' = p_config pr /\ p_streamState pr' = p_streamState pr.
Proof.
  intros Hreach Hpr. split; [by apply (reachable_proc_command w p)|].
  intros evs. destruct (proc_history_run evs w p pr Hpr) as (pr' & Hpr' & HQ).
  exists pr'. unfold proc_history in HQ.
  destruct HQ as (_ & H2 & H3 & H4 & H5 & _). by split_and!.
Qed.

Lemma process_command_is_fixed_witness :
  exists pr',
    procs (run (retries 2) running_world) !! 0%nat = Some pr' /\
    p_args pr' = buildFfmpegArgs "clip.mp4" clip_config /\
    p_filePath pr' = "clip.mp4" /\
    p_config pr' = clip_config /\ p_streamState pr' = 0%nat.
Proof.
  assert (Hreach : reachable running_world).
  { exists [Start "s1" "clip.mp4" clip_config 0]. reflexivity. }
  exact (proj2 (process_command_is_fixed running_world 0
                  (mkProc "s1" "clip.mp4" clip_config 0
                          (buildFfmpegArgs "clip.mp4" clip_config)
                          false false [] [])
                  Hreach eq_refl) (retries 2)).
Defined.

(** X19: a failed attempt followed by its relaunch. When the process of
    a running stream exits with a code other than 0 below the attempt
    limit and the relaunch timer then comes due, a new process is
    spawned for the same stream with the very arguments of the failed
    one; the stream is [running] again with the counter one higher and
    its stats and start time untouched. *)
Theorem relaunch_repeats_command
  (w : World) (p : nat) (pr : Proc) (s : StreamState) (code : option Z) :
  reachable w ->
  procs w !! p = Some pr -> p_exited pr = false ->
  heap w !! p_streamState pr = Some s -> status s = running ->
  code <> Some 0 -> reconnectAttempts s < MAX_RECONNECT_ATTEMPTS ->
  (exists pr',
     procs (run [Close p code; Fire (nextTimer w)] w) !! length (procs w)
       = Some pr' /\
     p_args pr' = p_args pr /\ p_streamState pr' = p_streamState pr /\
     p_exited pr' = false) /\
  heap (run [Close p code; Fire (nextTimer w)] w) !! p_streamState pr =
    Some (mkStreamState (Some (length (procs w))) running (startedAt s)
                        (reconnectAttempts s + 1) (Some (nextTimer w))
                        (stats s) (config s)) /\
  timers (run [Close p code; Fire (nextTimer w)] w) !! nextTimer w = None.
Proof.
  intros Hreach Hpr Hx Hs Hst Hcode Hlt.
  pose proof (reachable_proc_command w p pr Hreach Hpr) as Hargs.
  apply reachable_wf in Hreach.
  change (run [Close p code; Fire (nextTimer w)] w)
    with (step (Fire (nextTimer w)) (step (Close p code) w)).
  rewrite (step_close_running w p pr s _ Hreach Hpr Hx Hs Hst).
  unfold onClose. simpl_world. rewrite Hs, Hst.
  rewrite bool_decide_eq_false_2 by done.
  destruct (Z.ltb_spec (reconnectAttempts s) MAX_RECONNECT_ATTEMPTS); [|lia].
  set (a := p_streamState pr) in *.
  set (w1 := (let '(t, w0) := setTimeout _ _ _ in update_stream a _ w0)).
  assert (Ht1 : timers w1 = <[nextTimer w :=
                   mkTimer (Relaunch (p_streamId pr) (p_filePath pr)
                                     (p_config pr) a) RECONNECT_DELAY_MS]>
                   (timers w)).
  { subst w1. cbn. by simpl_world. }
  assert (Hh1 : heap w1 !! a =
                Some (set_reconnectTimer (Some (nextTimer w))
                        (set_status reconnecting
                           (set_reconnectAttempts (reconnectAttempts s + 1) s)))).
  { subst w1. cbn. simpl_world. by rewrite !list_lookup_alter_eq, Hs. }
  assert (Hp1 : length (procs w1) = length (procs w)).
  { subst w1. cbn. unfold mark_exited. rewrite Hpr. cbn.
    by rewrite length_insert. }
  clearbody w1.
  cbn [step]. rewrite Ht1, lookup_insert_eq. cbn [callback run_callback].
  unfold status_at. cbn [heap clearTimeout]. rewrite Hh1. cbn [fmap option_fmap
    option_map status set_reconnectTimer set_status].
  split; [|split].
  - rewrite procs_spawnFfmpeg. cbn [procs clearTimeout].
    rewrite lookup_app_r by lia. rewrite Hp1, Nat.sub_diag. cbn.
    eexists. split; [reflexivity|]. cbn. by rewrite Hargs.
  - rewrite heap_spawnFfmpeg. cbn [heap clearTimeout procs].
    rewrite !list_lookup_alter_eq, Hh1, Hp1. done.
  - cbn. by rewrite Ht1, lookup_delete_eq.
Qed.

Lemma relaunch_repeats_command_witness :
  exists pr',
    procs (run [Close 0%nat (Some 1); Fire 0%nat] running_world) !! 1%nat
      = Some pr' /\
    p_args pr' = buildFfmpegArgs "clip.mp4" clip_config /\
    p_streamState pr' = 0%nat /\ p_exited pr' = false.
Proof.
  assert (Hreach : reachable running_world).
  { exists [Start "s1" "clip.mp4" clip_config 0]. reflexivity. }
  apply (relaunch_repeats_command running_world 0
           (mkProc "s1" "clip.mp4" clip_config 0
                   (buildFfmpegArgs "clip.mp4" clip_config)
                   false false [] [])
           running_state (Some 1) Hreach);
    try reflexivity; try discriminate.
Defined.

(** ** Streams and their live processes *)

Lemma live_inv_same w w' :
  heap w' = heap w -> procs w' = procs w -> live_inv w -> live_inv w'.
Proof.
  intros Hh Hp [H1]. split. intros p pr. rewrite Hp, Hh. apply H1.
Qed.

Lemma live_inv_update a f w :
  live_inv w ->
  (forall s, heap w !! a = Some s ->
     process (f s) = process s /\
     (status (f s) = status s \/ status (f s) = stopped)) ->
  live_inv (update_stream a f w).
Proof.
  intros [H1] Hf. split; cbn.
  intros p pr Hpr Hx. destruct (H1 p pr Hpr Hx) as (s & Hs & Hp & Hst).
  destruct (decide (a = p_streamState pr)) as [->|Hne].
  - exists (f s). rewrite list_lookup_alter_eq, Hs.
    destruct (Hf s Hs) as [Hp' Hst'].
    split; [done|]. split; [congruence|].
    destruct Hst' as [Hst'|Hst']; rewrite Hst'; [done|by right].
  - exists s. by rewrite list_lookup_alter_ne.
Qed.

(** A handle update that keeps [exited] and the stream. *)
Lemma live_inv_insert w p pr y :
  procs w !! p = Some pr ->
  p_exited y = p_exited pr -> p_streamState y = p_streamState pr ->
  live_inv w -> live_inv (set_procs (<[p := y]> (procs w)) w).
Proof.
  intros Hpr Hx Ho [H1]. split; cbn.
  intros q pr' [(-> & -> & _)|(Hne & Hq)]%lookup_insert_inv Hx'.
  - rewrite Ho. apply H1; [done|congruence].
  - eauto.
Qed.

Lemma live_inv_kill p sig w : live_inv w -> live_inv (kill p sig w).
Proof.
  intros H. unfold kill. destruct (procs w !! p) as [pr|] eqn:E; [|done].
  destruct (p_exited pr) eqn:Ex; [done|].
  by apply (live_inv_insert w p pr).
Qed.

Lemma live_inv_on_close_clear p t w :
  live_inv w -> live_inv (on_close_clear p t w).
Proof.
  intros H. unfold on_close_clear.
  destruct (procs w !! p) as [pr|] eqn:E; [|done].
  by apply (live_inv_insert w p pr).
Qed.

(** [spawnFfmpeg] for a stream that has no live process. *)
Lemma live_inv_spawnFfmpeg sid f c a w :
  (forall p pr, procs w !! p = Some pr -> p_exited pr = false ->
     p_streamState pr <> a /\
     exists s, heap w !! p_streamState pr = Some s /\
               process s = Some p /\
               (status s = running \/ status s = stopped)) ->
  is_Some (heap w !! a) ->
  live_inv (spawnFfmpeg sid f c a w).
Proof.
  intros H1 [s0 Hs0]. split.
  intros p pr. rewrite procs_spawnFfmpeg.
  intros [Hpr|[-> ->]]%lookup_snoc_inv Hx.
  - destruct (H1 p pr Hpr Hx) as (Hne & s & Hs & Hp & Hst).
    exists s. rewrite heap_spawnFfmpeg.
    by rewrite !list_lookup_alter_ne.
  - cbn [p_streamState].
    rewrite heap_spawnFfmpeg, !list_lookup_alter_eq, Hs0. cbn.
    eexists. split; [reflexivity|]. cbn. eauto.
Qed.

Lemma live_inv_relaunch sid f c a w s :
  live_inv w -> heap w !! a = Some s -> status s = reconnecting ->
  live_inv (spawnFfmpeg sid f c a w).
Proof.
  intros [H1] Hs Hst. apply live_inv_spawnFfmpeg; [|by eauto].
  intros p pr Hpr Hx. destruct (H1 p pr Hpr Hx) as (s1 & Hs1 & Hp & Hst1).
  split; [|by eauto]. intros Ho. rewrite Ho in Hs1.
  assert (s1 = s) as -> by congruence. destruct Hst1; congruence.
Qed.

Lemma live_inv_startStream id f c now w :
  live_inv w -> live_inv (startStream id f c now w).2.
Proof.
  intros [H1]. rewrite startStream_world.
  apply live_inv_spawnFfmpeg; cbn.
  - intros p pr Hpr Hx. destruct (H1 p pr Hpr Hx) as (s & Hs & Hp & Hst).
    split.
    + apply lookup_lt_Some in Hs. lia.
    + exists s. split; [by apply lookup_app_l_Some|done].
  - rewrite lookup_app_r by lia. rewrite Nat.sub_diag. eauto.
Qed.

(** The ['close'] event of a process that had not exited. *)
Lemma live_inv_close sid f c code w p pr :
  live_inv w -> procs w !! p = Some pr -> p_exited pr = false ->
  live_inv (onClose sid f c (p_streamState pr) code (mark_exited p w)).
Proof.
  intros [H1] Hpr Hx.
  destruct (H1 p pr Hpr Hx) as (s & Hs & Hp & Hst).
  set (a := p_streamState pr) in *.
  (* the world after the exit is recorded, seen from the other streams *)
  assert (L1 : forall q pr', procs (mark_exited p w) !! q = Some pr' ->
                 p_exited pr' = false ->
                 p_streamState pr' <> a /\
                 exists s1, heap w !! p_streamState pr' = Some s1 /\
                            process s1 = Some q /\
                            (status s1 = running \/ status s1 = stopped)).
  { intros q pr'. unfold mark_exited. rewrite Hpr. cbn.
    intros [(-> & -> & _)|(Hne & Hq)]%lookup_insert_inv Hx'; [done|].
    destruct (H1 q pr' Hq Hx') as (s1 & Hs1 & Hp1 & Hst1).
    split; [|by eauto]. intros Ho. rewrite Ho in Hs1.
    assert (s1 = s) as -> by congruence. congruence. }
  (* whatever the handler does, it touches no other stream and no
     process *)
  assert (Hgoal : forall w',
             procs w' = procs (mark_exited p w) ->
             (forall b, b <> a -> heap w' !! b = heap w !! b) ->
             live_inv w').
  { intros w' Hp' Hother. split; rewrite Hp'.
    intros q pr' Hq Hx'. destruct (L1 q pr' Hq Hx') as (Hne & s1 & ?).
    exists s1. by rewrite Hother. }
  unfold onClose. simpl_world. fold a. rewrite Hs.
  assert (Hupd : forall g w0 b, b <> a ->
             heap (update_stream a g w0) !! b = heap w0 !! b).
  { intros g w0 b Hne. unfold update_stream; cbn.
    by rewrite list_lookup_alter_ne. }
  destruct Hst as [Hst|Hst]; rewrite Hst.
  - destruct (bool_decide (code = Some 0)).
    + apply Hgoal; [done|]. intros b Hne. by rewrite Hupd, heap_mark_exited.
    + destruct (reconnectAttempts s <? MAX_RECONNECT_ATTEMPTS).
      * apply Hgoal; [done|]. intros b Hne. cbn. simpl_world.
        by rewrite !list_lookup_alter_ne.
      * apply Hgoal; [done|]. intros b Hne.
        by rewrite Hupd, heap_mark_exited.
  - apply Hgoal; [done|]. intros b _. by rewrite heap_mark_exited.
Qed.

Lemma live_inv_terminate_process a s w :
  live_inv w -> live_inv (terminate_process a s w).
Proof.
  intros H. unfold terminate_process.
  destruct (process s) as [p|]; [|done].
  destruct (procs w !! p) as [pr|]; [|done].
  destruct (negb (p_killed pr)); [|done].
  change (live_inv
            (on_close_clear p (nextTimer (kill p SIGINT w))
               (setTimeout (ForceKill a) 5000 (kill p SIGINT w)).2)).
  apply live_inv_on_close_clear.
  apply (live_inv_same (kill p SIGINT w)); [done|done|].
  by apply live_inv_kill.
Qed.

Lemma live_inv_stopStream id w : live_inv w -> live_inv (stopStream id w).2.
Proof.
  intros H. unfold stopStream.
  destruct (activeStreams w !! id) as [a|]; [|done].
  destruct (heap w !! a) as [s|]; [|done].
  destruct (negb (is_active (status s))); [done|]. cbn [snd].
  apply live_inv_terminate_process.
  assert (H1 : live_inv (update_stream a (set_status stopped) w)).
  { apply live_inv_update; [done|]. intros s0 _. split; [done|by right]. }
  unfold cancel_reconnect. destruct (reconnectTimer s); [|done].
  apply live_inv_update; [|intros s0 _; split; [done|by left]].
  by apply (live_inv_same (update_stream a (set_status stopped) w)).
Qed.

Lemma live_inv_stopAll_entry a w : live_inv w -> live_inv (stopAll_entry a w).
Proof.
  intros H. unfold stopAll_entry.
  destruct (heap w !! a) as [s|]; [|done].
  destruct (is_active (status s)); [|done].
  apply live_inv_update; [|intros s0 _; split; [done|by right]].
  set (w1 := match reconnectTimer s with
             | Some t => clearTimeout t w
             | None => w
             end).
  assert (H1 : live_inv w1).
  { subst w1. destruct (reconnectTimer s); [|done].
    by apply (live_inv_same w). }
  clearbody w1.
  destruct (process s) as [p|]; [|done].
  destruct (procs w1 !! p) as [pr|]; [|done].
  destruct (negb (p_killed pr)); [|done].
  by apply live_inv_kill.
Qed.

Lemma live_inv_stopAllStreams w : live_inv w -> live_inv (stopAllStreams w).
Proof.
  unfold stopAllStreams. generalize (map_to_list (activeStreams w)).
  intros l. revert w. induction l as [|[id a] l IH]; intros w H; cbn.
  - done.
  - by apply IH, live_inv_stopAll_entry.
Qed.

Lemma live_inv_step e w : live_inv w -> live_inv (step e w).
Proof.
  intros H. destruct e as [id f c now|id| |id|p output|p code|p|t];
    cbn [step].
  - by apply live_inv_startStream.
  - by apply live_inv_stopStream.
  - by apply live_inv_stopAllStreams.
  - done.
  - destruct (procs w !! p) as [pr|]; [|done].
    destruct (p_exited pr); [done|].
    unfold onStderrData. destruct (match_time output) as [t|]; [|done].
    apply live_inv_update; [done|]. intros s _.
    destruct (record_progress_fields (p_config pr) t s) as (F1 & F2 & _).
    split; [done|by left].
  - destruct (procs w !! p) as [pr|] eqn:Hpr; [|done].
    destruct (p_exited pr) eqn:Hx; [done|].
    eapply live_inv_same;
      [apply heap_clear_all|apply procs_clear_all|].
    by apply live_inv_close.
  - done.
  - destruct (timers w !! t) as [[cb d]|]; [|done].
    cbn [callback]. destruct cb as [sid f c a|a]; cbn [run_callback].
    + unfold status_at. cbn [heap clearTimeout].
      destruct (heap w !! a) as [s|] eqn:Hs;
        [|by apply (live_inv_same w)].
      cbn. destruct (status s) eqn:Hst; try by apply (live_inv_same w).
      apply (live_inv_relaunch sid f c a (clearTimeout t w) s); [|done|done].
      by apply (live_inv_same w).
    + cbn [heap clearTimeout].
      destruct (heap w !! a) as [s|]; [|by apply (live_inv_same w)].
      destruct (process s); [|by apply (live_inv_same w)].
      apply live_inv_kill. by apply (live_inv_same w).
Qed.

Lemma live_inv_init : live_inv init.
Proof. split; intros ? ?; cbn; by rewrite ?lookup_nil. Qed.

Lemma reachable_live_inv w : reachable w -> live_inv w.
Proof.
  intros [evs ->]. generalize init live_inv_init.
  induction evs as [|e evs IH]; intros w H; [done|].
  change (run (e :: evs) w) with (run evs (step e w)).
  by apply IH, live_inv_step.
Qed.

(** X20: in every reachable world a process that has not exited is the
    current process of the stream state it was spawned for, and that
    state is [running] or [stopped]; hence no stream state ever has two
    processes that have not exited. *)
Theorem one_live_process_per_stream (w : World) :
  reachable w ->
  (forall p pr,
     procs w !! p = Some pr -> p_exited pr = false ->
     exists s, heap w !! p_streamState pr = Some s /\
               process s = Some p /\
               (status s = running \/ status s = stopped)) /\
  (forall p q pr pr',
     procs w !! p = Some pr -> procs w !! q = Some pr' ->
     p_exited pr = false -> p_exited pr' = false ->
     p_streamState pr = p_streamState pr' -> p = q).
Proof.
  intros [H1]%reachable_live_inv. split; [exact H1|].
  intros p q pr pr' Hp Hq Hx Hx' Ho.
  destruct (H1 p pr Hp Hx) as (s & Hs & Hps & _).
  destruct (H1 q pr' Hq Hx') as (s' & Hs' & Hqs & _).
  rewrite Ho in Hs. congruence.
Qed.

Lemma one_live_process_per_stream_witness :
  exists s,
    heap (run (retries 3) running_world) !! 0%nat = Some s /\
    process s = Some 3%nat /\
    (status s = running \/ status s = stopped).
Proof.
  assert (Hreach : reachable (run (retries 3) running_world)).
  { apply reachable_run. exists [Start "s1" "clip.mp4" clip_config 0].
    reflexivity. }
  apply (proj1 (one_live_process_per_stream _ Hreach) 3%nat
           (spawned_proc "s1" "clip.mp4" clip_config 0));
    vm_compute; reflexivity.
Defined.

(** X21: a stream that is [reconnecting], [completed] or [error] has no
    live process: its current process has exited. So stopping a
    [reconnecting] stream signals nobody, although the forced-kill
    timer is armed all the same. *)
Theorem waiting_stream_has_no_live_process
  (w : World) (id : string) (a p : nat) (s : StreamState) :
  reachable w ->
  heap w !! a = Some s -> process s = Some p ->
  status s <> running -> status s <> stopped ->
  (exists pr, procs w !! p = Some pr /\ p_exited pr = true) /\
  (activeStreams w !! id = Some a -> status s = reconnecting ->
   (forall q pr, procs w !! q = Some pr ->
      exists pr', procs (stopStream id w).2 !! q = Some pr' /\
                  p_signals pr' = p_signals pr) /\
   timers (stopStream id w).2 !! nextTimer w
     = Some (mkTimer (ForceKill a) 5000)).
Proof.
  intros Hreach Hs Hp Hnr Hns.
  pose proof (reachable_live_inv w Hreach) as [H1].
  apply reachable_wf in Hreach.
  destruct (wf_process_owner w Hreach a s p Hs Hp) as (pr & Hpr & Ho).
  assert (Hx : p_exited pr = true).
  { destruct (p_exited pr) eqn:E; [done|]. exfalso.
    destruct (H1 p pr Hpr E) as (s1 & Hs1 & _ & Hst1).
    rewrite Ho in Hs1. assert (s1 = s) as -> by congruence.
    destruct Hst1; congruence. }
  split; [by eauto|].
  intros Hid Hst.
  rewrite (stopStream_active id w a s) by (try done; by rewrite Hst).
  cbn [snd].
  set (w2 := cancel_reconnect a s (update_stream a (set_status stopped) w)).
  assert (Hp2 : procs w2 = procs w).
  { subst w2. by rewrite procs_cancel_reconnect. }
  assert (Hn2 : nextTimer w2 = nextTimer w).
  { subst w2. unfold cancel_reconnect. by destruct (reconnectTimer s). }
  clearbody w2.
  assert (Hk : p_killed pr = false).
  { eapply (wf_active_not_killed w Hreach); eauto. by rewrite Hst. }
  assert (Hlt : (p < length (procs w2))%nat).
  { rewrite Hp2. by eapply lookup_lt_Some. }
  unfold terminate_process. rewrite Hp, Hp2, Hpr, Hk. cbn [negb].
  unfold kill. rewrite Hp2, Hpr, Hx. cbn.
  unfold on_close_clear. cbn. rewrite Hp2, Hpr. cbn.
  rewrite Hn2, lookup_insert_eq. split; [|done].
  intros q pr0 Hq. destruct (decide (q = p)) as [->|Hne].
  - rewrite list_lookup_insert_eq by by rewrite <- Hp2.
    eexists. split; [reflexivity|]. cbn. congruence.
  - rewrite list_lookup_insert_ne by done. eauto.
Qed.

Lemma waiting_stream_has_no_live_process_witness :
  (exists pr, procs reconnecting_world !! 0%nat = Some pr /\
              p_exited pr = true) /\
  (activeStreams reconnecting_world !! "s1" = Some 0%nat ->
   status reconnecting_state = reconnecting ->
   (forall q pr, procs reconnecting_world !! q = Some pr ->
      exists pr', procs (stopStream "s1" reconnecting_world).2 !! q = Some pr' /\
                  p_signals pr' = p_signals pr) /\
   timers (stopStream "s1" reconnecting_world).2
     !! nextTimer reconnecting_world
     = Some (mkTimer (ForceKill 0) 5000)).
Proof.
  apply (waiting_stream_has_no_live_process reconnecting_world "s1" 0 0
           reconnecting_state); try reflexivity; try discriminate.
  exists [Start "s1" "clip.mp4" clip_config 0; Close 0%nat (Some 1)].
  reflexivity.
Defined.

(** ** [stopAllStreams] and the processes *)

Lemma procs_stopAll_entry_keep a' w p pr :
  wf w -> procs w !! p = Some pr ->
  (p_streamState pr <> a' \/
   forall s, heap w !! a' = Some s -> is_active (status s) = false) ->
  procs (stopAll_entry a' w) !! p = Some pr.
Proof.
  intros Hw Hpr Hcase. unfold stopAll_entry.
  destruct (heap w !! a') as [s'|] eqn:Hs'; [|done].
  destruct (is_active (status s')) eqn:Hact; [|done].
  assert (Hne : p_streamState pr <> a').
  { destruct Hcase as [|H]; [done|]. specialize (H s' eq_refl). congruence. }
  cbn [update_stream set_heap procs].
  set (w1 := match reconnectTimer s' with
             | Some t => clearTimeout t w
             | None => w
             end).
  assert (Hp1 : procs w1 = procs w) by (subst w1; by destruct (reconnectTimer s')).
  clearbody w1.
  destruct (process s') as [p'|] eqn:Hp'; [|by rewrite Hp1].
  destruct (procs w1 !! p') as [pr'|] eqn:Hpr'; [|by rewrite Hp1].
  destruct (negb (p_killed pr')); [|by rewrite Hp1].
  apply procs_kill_other; [by rewrite Hp1|].
  intros pr0 Hpr0. assert (pr0 = pr') as -> by congruence.
  rewrite Hp1 in Hpr'.
  rewrite (handle_owner w a' s' p' pr') by done. congruence.
Qed.

Lemma stopAll_entry_kills a w s p pr :
  wf w -> heap w !! a = Some s -> is_active (status s) = true ->
  process s = Some p -> procs w !! p = Some pr -> p_exited pr = false ->
  procs (stopAll_entry a w) !! p =
    Some (mkProc (p_streamId pr) (p_filePath pr) (p_config pr)
                 (p_streamState pr) (p_args pr) true false
                 (p_signals pr ++ [SIGKILL]) (p_onClose pr)) /\
  status_at a (stopAll_entry a w) = Some stopped.
Proof.
  intros Hw Hs Hact Hp Hpr Hx.
  assert (Hk : p_killed pr = false).
  { eapply (wf_active_not_killed w Hw); eauto. }
  split; [|by rewrite (status_at_stopAll_entry a w s Hs), Hact].
  unfold stopAll_entry. rewrite Hs, Hact, Hp.
  cbn [update_stream set_heap procs].
  set (w1 := match reconnectTimer s with
             | Some t => clearTimeout t w
             | None => w
             end).
  assert (Hp1 : procs w1 = procs w) by (subst w1; by destruct (reconnectTimer s)).
  clearbody w1. rewrite Hp1, Hpr, Hk. cbn [negb].
  unfold kill. rewrite Hp1, Hpr, Hx. cbn.
  rewrite list_lookup_insert_eq; [done|]. by eapply lookup_lt_Some.
Qed.

Lemma stopAll_fold_kept (l : list (string * nat)) w p pr :
  wf w -> procs w !! p = Some pr ->
  status_at (p_streamState pr) w = Some stopped ->
  procs (foldl (fun w entry => stopAll_entry entry.2 w) w l) !! p = Some pr.
Proof.
  revert w. induction l as [|[id' a'] l IH]; intros w Hw Hpr Hst; [done|].
  cbn [foldl snd]. apply IH.
  - by apply wf_stopAll_entry.
  - apply procs_stopAll_entry_keep; [done|done|].
    destruct (decide (p_streamState pr = a')) as [<-|]; [|by left].
    right. intros s Hs. unfold status_at in Hst. rewrite Hs in Hst.
    cbn in Hst. injection Hst as ->. done.
  - by apply (settled_stopAll_entry (p_streamState pr) stopped
                (spawn_count (p_streamState pr) w) eq_refl).
Qed.

Lemma stopAll_fold_kills (l : list (string * nat)) w a s p pr :
  wf w -> In a (map snd l) ->
  heap w !! a = Some s -> is_active (status s) = true ->
  process s = Some p -> procs w !! p = Some pr -> p_exited pr = false ->
  procs (foldl (fun w entry => stopAll_entry entry.2 w) w l) !! p =
    Some (mkProc (p_streamId pr) (p_filePath pr) (p_config pr)
                 (p_streamState pr) (p_args pr) true false
                 (p_signals pr ++ [SIGKILL]) (p_onClose pr)).
Proof.
  revert w. induction l as [|[id' a'] l IH];
    intros w Hw Hin Hs Hact Hp Hpr Hx; [done|].
  assert (Ho : p_streamState pr = a) by by eapply handle_owner.
  cbn [foldl snd]. destruct (decide (a' = a)) as [->|Hne].
  - destruct (stopAll_entry_kills a w s p pr Hw Hs Hact Hp Hpr Hx)
      as [Hk Hst].
    apply stopAll_fold_kept; [by apply wf_stopAll_entry|done|].
    cbn [p_streamState]. by rewrite Ho.
  - cbn [map snd In] in Hin. destruct Hin as [|Hin]; [done|].
    apply (IH _ (wf_stopAll_entry a' w Hw) Hin).
    + unfold stopAll_entry.
      destruct (heap w !! a') as [s'|]; [|done].
      destruct (is_active (status s')); [|done].
      cbn [update_stream set_heap heap].
      rewrite list_lookup_alter_ne by done.
      destruct (reconnectTimer s'), (process s') as [p'|]; cbn; try done.
      * destruct (procs w !! p') as [pr'|]; [|done].
        destruct (negb (p_killed pr')); [|done]. by rewrite heap_kill.
      * destruct (procs w !! p') as [pr'|]; [|done].
        destruct (negb (p_killed pr')); [|done]. by rewrite heap_kill.
    + done.
    + done.
    + apply procs_stopAll_entry_keep; [done|done|]. left. congruence.
    + done.
Qed.

(** X22: [stopAllStreams] sends SIGKILL, with no SIGINT before it, to
    the process of every registered stream that is [running] or
    [reconnecting] and whose process has not exited. *)
Theorem stopAllStreams_kills_live_processes
  (w : World) (id : string) (a p : nat) (s : StreamState) (pr : Proc) :
  reachable w ->
  activeStreams w !! id = Some a -> heap w !! a = Some s ->
  is_active (status s) = true -> process s = Some p ->
  procs w !! p = Some pr -> p_exited pr = false ->
  exists pr',
    procs (stopAllStreams w) !! p = Some pr' /\
    p_killed pr' = true /\
    p_signals pr' = (p_signals pr ++ [SIGKILL])%list.
Proof.
  intros Hreach Hid Hs Hact Hp Hpr Hx. apply reachable_wf in Hreach.
  eexists. split.
  - unfold stopAllStreams. eapply stopAll_fold_kills; eauto.
    apply in_map_iff. exists (id, a). split; [done|].
    apply list_elem_of_In. by apply elem_of_map_to_list.
  - done.
Qed.

Lemma stopAllStreams_kills_live_processes_witness :
  exists pr',
    procs (stopAllStreams running_world) !! 0%nat = Some pr' /\
    p_killed pr' = true /\ p_signals pr' = [SIGKILL].
Proof.
  apply (stopAllStreams_kills_live_processes running_world "s1" 0 0
           running_state
           (mkProc "s1" "clip.mp4" clip_config 0
                   (buildFfmpegArgs "clip.mp4" clip_config)
                   false false [] [])); try reflexivity.
  exists [Start "s1" "clip.mp4" clip_config 0]. reflexivity.
Defined.

(** X23: registry entries persist. An id that is registered stays
    registered under every event, so in a reachable world its report is
    never ["not_found"] again, whatever became of the stream. *)
Theorem registered_ids_persist (w : World) (evs : list Event) (id : string) :
  reachable w -> is_Some (activeStreams w !! id) ->
  is_Some (activeStreams (run evs w) !! id) /\
  Report.status (getStreamStatus id (run evs w)) <> "not_found".
Proof.
  intros Hreach Hid.
  pose proof (registered_run evs w id Hid) as [a Ha].
  split; [by eauto|].
  pose proof (reachable_wf _ (reachable_run evs w Hreach)) as Hw.
  pose proof (wf_registry_bound _ Hw _ _ Ha) as Hlt.
  apply lookup_lt_is_Some in Hlt as [s Hs].
  unfold getStreamStatus. rewrite Ha. cbn. rewrite Hs. cbn.
  destruct (status s); cbn; discriminate.
Qed.

Lemma registered_ids_persist_witness :
  is_Some (activeStreams (run [Stop "s1"; Close 0%nat None; StopAll]
                              running_world) !! "s1") /\
  Report.status (getStreamStatus "s1"
                   (run [Stop "s1"; Close 0%nat None; StopAll] running_world))
  <> "not_found".
Proof.
  apply (registered_ids_persist running_world).
  - exists [Start "s1" "clip.mp4" clip_config 0]. reflexivity.
  - eexists. reflexivity.
Defined.
